(** * tools/cdata.js: the web-interface asset packer of WLED

    A shallow embedding of [tools/cdata.js] and the properties of its three
    operations: the gzipped index page ([writeHtmlGzipped]), the plaintext
    chunk and the binary chunk ([specToChunk], driven by [writeChunks]).

    Conventions of the embedding.
    - A JavaScript string is a [string]; one [ascii] stands for one
      character of the text, so that texts are covered whose characters
      are below U+0100.  A [Buffer] is a [list byte].
    - The file system is a finite map from paths to nodes, the console is
      part of the event trace, and a JavaScript exception is an outcome of
      the computation ([Throw]).
    - The npm modules the script loads ([inliner], [zlib], [clean-css],
      [html-minifier]) and [package.json] are the fields of the class
      [Env]; every statement quantifies over them.
    - [writeHtmlGzipped] hands a callback to the inliner and returns; the
      callback runs later, from the inliner.  A computation that leaves
      work to the event loop returns that work as its value, and
      [process] runs it when the script is over; what a callback throws
      is the [InCallback] ending of the process, not an exception of the
      script.
    - A [mangle] is any function from text to text; those of the script
      are regular-expression rewrites, given in [Config]. *)

From Stdlib Require Import String Ascii List NArith Lia.
From Stdlib Require Import DecimalString DecimalNat DecimalFacts.
From Stdlib.Strings Require Import Byte.
From stdpp Require Import base strings gmap.

Local Open Scope string_scope.
Local Open Scope list_scope.

(** ** Text primitives of the JavaScript runtime *)

Module Js.

Definition nl : string := String "010" "".
Definition dquote : string := String "034" "".

(** [String(n)] for a non-negative integer, as a template literal prints it. *)
Definition decimal (n : nat) : string := NilZero.string_of_uint (Nat.to_uint n).

Definition hex_digit (d : N) : ascii :=
  match d with
  | 0 => "0" | 1 => "1" | 2 => "2" | 3 => "3" | 4 => "4" | 5 => "5"
  | 6 => "6" | 7 => "7" | 8 => "8" | 9 => "9" | 10 => "a" | 11 => "b"
  | 12 => "c" | 13 => "d" | 14 => "e" | _ => "f"
  end%N%char.

Fixpoint toString16_aux (fuel : nat) (n : N) (acc : string) : string :=
  match fuel with
  | O => acc
  | S fuel' =>
      let acc' := String (hex_digit (n mod 16)) acc in
      if (n / 16 =? 0)%N then acc' else toString16_aux fuel' (n / 16) acc'
  end.

(** [n.toString(16)]: at most one digit per bit of [n], and one for zero. *)
Definition toString16 (n : N) : string :=
  toString16_aux (S (N.to_nat (N.log2 n))) n "".

Fixpoint repeat_char (k : nat) (c : ascii) : string :=
  match k with
  | O => ""
  | S k' => String c (repeat_char k' c)
  end.

(** [s.padStart(targetLength, fill)] for a one-character [fill]. *)
Definition padStart (targetLength : nat) (fill : ascii) (s : string) : string :=
  repeat_char (targetLength - String.length s) fill +:+ s.

(** [array.join(sep)] on an array of strings. *)
Definition join (sep : string) (parts : list string) : string :=
  String.concat sep parts.

Fixpoint drop (k : nat) (s : string) : string :=
  match k, s with
  | O, _ => s
  | S _, "" => ""
  | S k', String _ s' => drop k' s'
  end.

Definition cons_head (c : ascii) (parts : list string) : list string :=
  match parts with
  | [] => [String c ""]
  | p :: ps => String c p :: ps
  end.

(** The scan of [str.split(sep)] for a non-empty separator: [skip] counts
    the characters of a matched separator still to be passed over. *)
Fixpoint split_scan (sep : string) (skip : nat) (s : string) : list string :=
  match s with
  | "" => [""]
  | String c s' =>
      match skip with
      | S k => split_scan sep k s'
      | O =>
          if String.prefix sep s
          then "" :: split_scan sep (String.length sep - 1) s'
          else cons_head c (split_scan sep 0 s')
      end
  end.

Fixpoint chars (s : string) : list string :=
  match s with
  | "" => []
  | String c s' => String c "" :: chars s'
  end.

(** [str.split(sep)]; the empty separator cuts between all characters. *)
Definition split (sep s : string) : list string :=
  match sep with
  | "" => chars s
  | _ => split_scan sep 0 s
  end.

(** [s.includes(t)] *)
Fixpoint includes (s t : string) : bool :=
  String.prefix t s
  || match s with
     | "" => false
     | String _ s' => includes s' t
     end.

(** [str.substring(0, k)]. *)
Definition substring0 (k : nat) (s : string) : string := String.substring 0 k s.

(** [str.replace(/^p/, "")] for a literal [p]. *)
Definition strip_prefix (p s : string) : string :=
  if String.prefix p s then drop (String.length p) s else s.

Fixpoint ends_with (p s : string) : bool :=
  if String.eqb p s then true
  else match s with
       | "" => false
       | String _ s' => ends_with p s'
       end.

(** [str.replace(/p$/, "")] for a literal [p]. *)
Definition strip_suffix (p s : string) : string :=
  if ends_with p s
  then String.substring 0 (String.length s - String.length p) s
  else s.

(** [buf.toString("ascii")]: every byte loses its highest bit and becomes
    one character. *)
Definition ascii_char (b : byte) : ascii :=
  ascii_of_N (N.land (Byte.to_N b) 127).

Fixpoint toString_ascii (buf : list byte) : string :=
  match buf with
  | [] => ""
  | b :: buf' => String (ascii_char b) (toString_ascii buf')
  end.

(** The text whose characters are the bytes of [buf], one for one. *)
Definition text_of_bytes (buf : list byte) : string := string_of_list_byte buf.

(** The UTF-8 bytes of a string, as [fs.writeFileSync] stores it. *)
Fixpoint utf8 (s : string) : list byte :=
  match s with
  | "" => []
  | String c s' =>
      let n := N_of_ascii c in
      if (n <? 128)%N then byte_of_ascii c :: utf8 s'
      else byte_of_ascii (ascii_of_N (192 + n / 64))
             :: byte_of_ascii (ascii_of_N (128 + n mod 64)) :: utf8 s'
  end.

End Js.

(** ** The world of a run: files, console, exceptions *)

(** A path of the file system holds data, or refuses access with the
    message of the error that [fs] raises for it. *)
Inductive node :=
  | File (data : list byte)
  | Denied (reason : string).

(** A thrown [Error]; the script only ever looks at its [message]. *)
Record exn := Error { message : string }.

Inductive event :=
  | Info (text : string)
  | Warn (args : list string)
  | Written (path : string) (text : string).

Record world := World { files : gmap string node; trace : list event }.

Inductive outcome (A : Type) :=
  | Ret (a : A)
  | Throw (e : exn).
Arguments Ret {A} a.
Arguments Throw {A} e.

(** Computations of the script: they read and change the world, and end
    with a value or with an exception. *)
Definition M (A : Type) : Type := world -> outcome A * world.

Definition ret {A} (a : A) : M A := fun w => (Ret a, w).

Definition throw {A} (e : exn) : M A := fun w => (Throw e, w).

Definition bind {A B} (m : M A) (k : A -> M B) : M B :=
  fun w =>
    match m w with
    | (Ret a, w') => k a w'
    | (Throw e, w') => (Throw e, w')
    end.

(** [try { m } catch (e) { handler e }] *)
Definition try_catch {A} (m : M A) (handler : exn -> M A) : M A :=
  fun w =>
    match m w with
    | (Ret a, w') => (Ret a, w')
    | (Throw e, w') => handler e w'
    end.

Notation "'let*' x := m 'in' k" := (bind m (fun x => k))
  (at level 10, x name, m at level 100, k at level 200).
Notation "m ;;; k" := (bind m (fun _ => k))
  (at level 100, k at level 200, right associativity).

Definition emit (e : event) : M unit :=
  fun w => (Ret tt, {| files := files w; trace := trace w ++ [e] |}).

Definition console_info (text : string) : M unit := emit (Info text).
Definition console_warn (args : list string) : M unit := emit (Warn args).

Definition enoent (path : string) : string :=
  "ENOENT: no such file or directory, open '" +:+ path +:+ "'".

(** [fs.readFileSync(path)] *)
Definition readFileSync (path : string) : M (list byte) :=
  fun w =>
    match files w !! path with
    | Some (File data) => (Ret data, w)
    | Some (Denied reason) => (Throw (Error reason), w)
    | None => (Throw (Error (enoent path)), w)
    end.

(** [fs.writeFileSync(path, text)]: the file is created or replaced. *)
Definition writeFileSync (path text : string) : M unit :=
  fun w =>
    match files w !! path with
    | Some (Denied reason) => (Throw (Error reason), w)
    | _ => (Ret tt, {| files := <[path := File (Js.utf8 text)]> (files w);
                       trace := trace w ++ [Written path text] |})
    end.

(** ** The event loop *)

(** How a run of the process ends: the script and its callbacks have
    returned; or the script has thrown and nothing has caught it; or a
    callback has thrown, into the module that called it. *)
Inductive ending :=
  | Finished
  | Uncaught (e : exn)
  | InCallback (e : exn).

(** The outcome of a callback, where it was called. *)
Definition called_back (r : outcome unit * world) : ending * world :=
  match r with
  | (Ret _, w) => (Finished, w)
  | (Throw e, w) => (InCallback e, w)
  end.

(** A run of [main] as the script of the process: [main] runs to its
    end and returns what it has left to the event loop, which runs next. *)
Definition process (main : M (M unit)) : world -> ending * world :=
  fun w =>
    match main w with
    | (Ret later, w') => called_back (later w')
    | (Throw e, w') => (Uncaught e, w')
    end.

(** ** What the script requires *)

Record repository := { url : option string }.

(** The two fields of [package.json] the script reads. *)
Record package := { version : option string; repo : option repository }.

(** The modules loaded with [require]: each is taken as the function of
    its input that its interface promises. *)
Class Env := {
  packageJson : package;
  (** [new inliner(file, callback)]: the [(error, html)] handed to the callback. *)
  inliner : gmap string node -> string -> option exn * option string;
  (** [zlib.gzip(text, {level: Z_BEST_COMPRESSION}, callback)]: the error or the
      result handed to the callback. *)
  zlib_gzip : string -> exn + list byte;
  (** [new CleanCSS({}).minify(text).styles] *)
  CleanCSS_minify : string -> outcome string;
  (** [MinifyHTML(text, options)] with the options of [filter]. *)
  MinifyHTML : string -> outcome string;
  (** The message of the [TypeError] that the runtime raises for
      [undefined.length]; its wording depends on the version of Node. *)
  length_of_undefined : string;
}.

(** An asset spec, one object literal of the arrays passed to
    [writeChunks]; a field that the literal leaves out is [None]. *)
Module Spec.
Record t := {
  file : string;
  name : string;
  method : option string;
  prepend : option string;
  append : option string;
  filter : option string;
  mangle : option (string -> string);
}.
End Spec.

(** ** tools/cdata.js *)

Module Cdata.

Import Js.

Definition hexbyte (value : byte) : string :=
  "0x" +:+ padStart 2 "0" (toString16 (Byte.to_N value)).

(** [buffer.slice(i, j)] for [i <= j]. *)
Definition slice (i j : nat) (buffer : list byte) : list byte :=
  firstn (j - i) (skipn i buffer).

Definition hexline (block : list byte) : string :=
  "  " +:+ join ", " (map hexbyte block).

(** The outer [for] loop of [hexdump], from index [i]. *)
Fixpoint hexdump_from (fuel i : nat) (buffer : list byte) : list string :=
  match fuel with
  | O => []
  | S fuel' =>
      if (i <? length buffer)%nat
      then hexline (slice i (i + 16) buffer) :: hexdump_from fuel' (i + 16) buffer
      else []
  end.

Definition hexdump (buffer : list byte) : string :=
  join ("," +:+ nl) (hexdump_from (length buffer) 0 buffer).

Definition strReplace (str search replacement : string) : string :=
  join replacement (split search str).

Definition truthy (s : option string) : option string :=
  match s with
  | Some "" => None
  | _ => s
  end.

Definition version_token : string := "##VERSION##".

(** The first half of [adoptVersionAndRepo]: the upstream URLs. *)
Definition adoptRepo (pkg : package) (html : string) : string :=
  let repoUrl := match repo pkg with Some r => url r | None => None end in
  match truthy repoUrl with
  | Some repoUrl =>
      let repoUrl := strip_prefix "git+" repoUrl in
      let repoUrl := strip_suffix ".git" repoUrl in
      let html := strReplace html "https://github.com/atuline/WLED" repoUrl in
      strReplace html "https://github.com/Aircoookie/WLED" repoUrl
  | None => html
  end.

Definition adoptVersionAndRepo `{Env} (html : string) : string :=
  let html := adoptRepo packageJson html in
  match truthy (version packageJson) with
  | Some version => strReplace html version_token version
  | None => html
  end.

Definition filter `{Env} (str : string) (type : option string) : M string :=
  let str := adoptVersionAndRepo str in
  match type with
  | None => ret str
  | Some t =>
      if String.eqb t "css-minify" then fun w => (CleanCSS_minify str, w)
      else if String.eqb t "html-minify" then fun w => (MinifyHTML str, w)
      else console_warn ["Unknown filter: " +:+ t] ;;; ret str
  end.

(** [value || ""] *)
Definition or_empty (value : option string) : string := default "" value.

(** The text a value contributes when it is appended to a string. *)
Definition text_of (value : option string) : string := default "undefined" value.

Definition method_is (s : Spec.t) (m : string) : bool :=
  match Spec.method s with
  | Some x => String.eqb x m
  | None => false
  end.

Definition mangled (s : Spec.t) (chunk : string) : string :=
  match Spec.mangle s with
  | Some f => f chunk
  | None => chunk
  end.

Definition plaintext_chunk (srcDir : string) (s : Spec.t) (body : string) : string :=
  nl +:+ "// Autogenerated from " +:+ srcDir +:+ "/" +:+ Spec.file s +:+ ", do not edit!!" +:+ nl
  +:+ "const char " +:+ Spec.name s +:+ "[] PROGMEM = R" +:+ dquote
  +:+ or_empty (Spec.prepend s) +:+ body +:+ or_empty (Spec.append s)
  +:+ dquote +:+ ";" +:+ nl +:+ nl.

Definition binary_chunk (srcDir : string) (s : Spec.t) (result : string) : string :=
  nl +:+ "// Autogenerated from " +:+ srcDir +:+ "/" +:+ Spec.file s +:+ ", do not edit!!" +:+ nl
  +:+ "const uint16_t " +:+ Spec.name s +:+ "_length = " +:+ decimal (String.length result) +:+ ";" +:+ nl
  +:+ "const uint8_t " +:+ Spec.name s +:+ "[] PROGMEM = {" +:+ nl
  +:+ result +:+ nl
  +:+ "};" +:+ nl +:+ nl.

(** The result is [None] where the script returns [undefined]. *)
Definition specToChunk `{Env} (srcDir : string) (s : Spec.t) : M (option string) :=
  if method_is s "plaintext" then
    let* buf := readFileSync (srcDir +:+ "/" +:+ Spec.file s) in
    let str := toString_ascii buf in
    let* body := filter str (Spec.filter s) in
    let chunk := plaintext_chunk srcDir s body in
    ret (Some (mangled s chunk))
  else if method_is s "binary" then
    let* buf := readFileSync (srcDir +:+ "/" +:+ Spec.file s) in
    let result := hexdump buf in
    let chunk := binary_chunk srcDir s result in
    ret (Some (mangled s chunk))
  else
    console_warn ["Unknown method: " +:+ text_of (Spec.method s)] ;;;
    ret None.

Definition chunks_header : string :=
  "/*" +:+ nl
  +:+ " * More web UI HTML source arrays." +:+ nl
  +:+ " * This file is auto generated, please don't make any changes manually." +:+ nl
  +:+ " * Instead, see https://github.com/Aircoookie/WLED/wiki/Add-own-functionality#web-ui" +:+ nl
  +:+ " * to find out how to easily modify the web UI source!" +:+ nl
  +:+ " */ " +:+ nl.

(** [e.message.length > 60 ? e.message.substring(0, 60) : e.message] *)
Definition clipped (msg : string) : string :=
  if (60 <? String.length msg)%nat then substring0 60 msg else msg.

(** [array.forEach(body)] where the body updates one captured variable. *)
Fixpoint forEach {A S : Type} (body : A -> S -> M S) (array : list A) (acc : S) : M S :=
  match array with
  | [] => ret acc
  | a :: rest => let* acc' := body a acc in forEach body rest acc'
  end.

(** The body of the [forEach] of [writeChunks]; [src] is the buffer. *)
Definition appendChunk `{Env} (srcDir : string) (s : Spec.t) (src : string) : M string :=
  try_catch
    (console_info ("Reading " +:+ srcDir +:+ "/" +:+ Spec.file s +:+ " as " +:+ Spec.name s) ;;;
     let* chunk := specToChunk srcDir s in
     ret (src +:+ text_of chunk))
    (fun e =>
       console_warn ["Failed " +:+ Spec.name s +:+ " from " +:+ srcDir +:+ "/" +:+ Spec.file s;
                     clipped (message e)] ;;;
       ret src).

Definition writeChunks `{Env} (srcDir : string) (specs : list Spec.t) (resultFile : string)
  : M unit :=
  let* src := forEach (appendChunk srcDir) specs chunks_header in
  console_info ("Writing " +:+ decimal (String.length src) +:+ " characters into " +:+ resultFile) ;;;
  writeFileSync resultFile src.

Definition html_source (sourceFile : string) (resultLength : nat) (array : string) : string :=
  "/*" +:+ nl
  +:+ " * Binary array for the Web UI." +:+ nl
  +:+ " * gzip is used for smaller size and improved speeds." +:+ nl
  +:+ " * " +:+ nl
  +:+ " * Please see https://github.com/Aircoookie/WLED/wiki/Add-own-functionality#web-ui" +:+ nl
  +:+ " * to find out how to easily modify the web UI source!" +:+ nl
  +:+ " */" +:+ nl
  +:+ " " +:+ nl
  +:+ "// Autogenerated from " +:+ sourceFile +:+ ", do not edit!!" +:+ nl
  +:+ "const uint16_t PAGE_index_L = " +:+ decimal resultLength +:+ ";" +:+ nl
  +:+ "const uint8_t PAGE_index[] PROGMEM = {" +:+ nl
  +:+ array +:+ nl
  +:+ "};" +:+ nl.

(** The callback given to [zlib.gzip]. *)
Definition onGzipped (sourceFile resultFile : string) (r : exn + list byte) : M unit :=
  match r with
  | inl error => console_warn [message error] ;;; throw error
  | inr result =>
      console_info ("Compressed " +:+ decimal (length result) +:+ " bytes") ;;;
      let array := hexdump result in
      let src := html_source sourceFile (length result) array in
      console_info ("Writing " +:+ resultFile) ;;;
      writeFileSync resultFile src
  end.

(** The callback given to [inliner]; reading [html.length] of an absent
    document raises a [TypeError] before the error is looked at.
    [zlib.gzip] calls back later as well; its callback is run where the
    call is made, and what it throws is thrown in a callback all the same. *)
Definition onInlined `{Env} (sourceFile resultFile : string)
    (error : option exn) (html : option string) : M unit :=
  match html with
  | None => throw (Error length_of_undefined)
  | Some html =>
      console_info ("Inlined " +:+ decimal (String.length html) +:+ " characters") ;;;
      match error with
      | Some error => console_warn [message error] ;;; throw error
      | None =>
          let html := adoptVersionAndRepo html in
          onGzipped sourceFile resultFile (zlib_gzip html)
      end
  end.

(** [new inliner(sourceFile, callback)], as the event loop runs it: the
    inliner calls [callback] with its answer for the files it finds. *)
Definition new_inliner `{Env} (sourceFile : string)
    (callback : option exn -> option string -> M unit) : M unit :=
  fun w =>
    let '(error, html) := inliner (files w) sourceFile in
    callback error html w.

(** [writeHtmlGzipped] prints a line, creates the inliner and returns;
    the inliner with its callback is what it leaves to the event loop. *)
Definition writeHtmlGzipped `{Env} (sourceFile resultFile : string) : M (M unit) :=
  console_info ("Reading " +:+ sourceFile) ;;;
  ret (new_inliner sourceFile (onInlined sourceFile resultFile)).

End Cdata.

(** ** Notions used to state the properties *)

Module Obs.

Import Js Cdata.

(** The path [specToChunk] reads for a spec. *)
Definition source_path (srcDir : string) (s : Spec.t) : string :=
  srcDir +:+ "/" +:+ Spec.file s.

(** The message of the error that reading [path] raises, if it raises one. *)
Definition read_error (fs : gmap string node) (path : string) : option string :=
  match fs !! path with
  | Some (File _) => None
  | Some (Denied reason) => Some reason
  | None => Some (enoent path)
  end.

Definition writable (fs : gmap string node) (path : string) : bool :=
  match fs !! path with
  | Some (Denied _) => false
  | _ => true
  end.

Definition is_console (e : event) : Prop :=
  match e with
  | Written _ _ => False
  | _ => True
  end.

(** [m] reads files and prints to the console, and does nothing else: it
    leaves the files as they are, and its result and its prints do not
    depend on what was printed before. *)
Definition console_only {A : Type} (m : M A) : Prop :=
  forall fs, exists r evs,
    Forall is_console evs
    /\ forall t, m {| files := fs; trace := t |} = (r, {| files := fs; trace := t ++ evs |}).

Definition concat_all (parts : list string) : string :=
  fold_right String.append "" parts.

(** What one spec adds to the buffer of [writeChunks] on the files [fs]:
    the text of what [specToChunk] returns, and nothing when it throws. *)
Definition contribution `{Env} (fs : gmap string node) (srcDir : string) (s : Spec.t) : string :=
  match fst (specToChunk srcDir s {| files := fs; trace := [] |}) with
  | Ret chunk => text_of chunk
  | Throw _ => ""
  end.

(** What [writeChunks] prints for one spec on the files [fs]. *)
Definition chunk_events `{Env} (fs : gmap string node) (srcDir : string) (s : Spec.t)
  : list event :=
  let run := specToChunk srcDir s {| files := fs; trace := [] |} in
  [Info ("Reading " +:+ srcDir +:+ "/" +:+ Spec.file s +:+ " as " +:+ Spec.name s)]
  ++ trace (snd run)
  ++ match fst run with
     | Ret _ => []
     | Throw e =>
         [Warn ["Failed " +:+ Spec.name s +:+ " from " +:+ srcDir +:+ "/" +:+ Spec.file s;
                clipped (message e)]]
     end.

(** The text [writeChunks] hands to [fs.writeFileSync] on the files [fs]. *)
Definition chunks_text `{Env} (fs : gmap string node) (srcDir : string) (specs : list Spec.t)
  : string :=
  chunks_header +:+ concat_all (map (contribution fs srcDir) specs).

Definition seven_bit (b : byte) : bool := (Byte.to_N b <? 128)%N.

(** The spec [s] with its [filter] field left out. *)
Definition without_filter (s : Spec.t) : Spec.t :=
  {| Spec.file := Spec.file s; Spec.name := Spec.name s; Spec.method := Spec.method s;
     Spec.prepend := Spec.prepend s; Spec.append := Spec.append s;
     Spec.filter := None; Spec.mangle := Spec.mangle s |}.

(** The non-empty suffixes of a string, longest first. *)
Fixpoint tails1 (s : string) : list string :=
  match s with
  | "" => []
  | String _ s' => s :: tails1 s'
  end.

(** One of the two strings starts with the other. *)
Definition compat (x y : string) : bool := String.prefix x y || String.prefix y x.

(** No occurrence of [token] can be formed by a copy of [v] and the text
    around it: no proper suffix of [token] lines up with the start of [v],
    and [token] lines up with no suffix of [v]. *)
Definition overlap_free (token v : string) : bool :=
  forallb (fun t => negb (compat t v)) (tails1 (drop 1 token))
  && forallb (fun u => negb (compat token u)) (tails1 v).

(** No character of [v] is a character of [token]. *)
Definition shares_no_char (token v : string) : bool :=
  forallb (fun c => negb (existsb (Ascii.eqb c) (list_ascii_of_string token)))
          (list_ascii_of_string v).

Definition hex_value (c : ascii) : option N :=
  let n := N_of_ascii c in
  if (48 <=? n)%N && (n <=? 57)%N then Some (n - 48)%N
  else if (97 <=? n)%N && (n <=? 102)%N then Some (n - 87)%N
  else if (65 <=? n)%N && (n <=? 70)%N then Some (n - 55)%N
  else None.

Definition is_separator (c : ascii) : bool :=
  Ascii.eqb c " " || Ascii.eqb c "," || Ascii.eqb c "010".

(** Reading back the initializer that [hexdump] prints, the way the C
    compiler reads it: [0x] literals of two digits between commas, blanks
    and line ends. *)
Fixpoint unhexdump (s : string) : option (list byte) :=
  match s with
  | "" => Some []
  | String c s1 =>
      if is_separator c then unhexdump s1
      else
        match s1 with
        | String x (String h (String l s4)) =>
            if Ascii.eqb c "0" && Ascii.eqb x "x" then
              match hex_value h, hex_value l with
              | Some a, Some b =>
                  match unhexdump s4 with
                  | Some rest => Some (byte_of_ascii (ascii_of_N (16 * a + b)) :: rest)
                  | None => None
                  end
              | _, _ => None
              end
            else None
        | _ => None
        end
  end.

(** Every character of [s] passes the test [p]. *)
Fixpoint every (p : ascii -> bool) (s : string) : bool :=
  match s with
  | "" => true
  | String c s' => p c && every p s'
  end.

(** No character of [s] is [c]. *)
Definition lacks (c : ascii) (s : string) : bool :=
  every (fun d => negb (Ascii.eqb d c)) s.

(** The characters that UTF-8 stores in one byte, unchanged. *)
Definition seven_bit_char (c : ascii) : bool := (N_of_ascii c <? 128)%N.

(** The text after the last [c] of [s]. *)
Fixpoint after_last (c : ascii) (s : string) : option string :=
  match s with
  | "" => None
  | String d s' =>
      match after_last c s' with
      | Some rest => Some rest
      | None => if Ascii.eqb d c then Some s' else None
      end
  end.

(** The text before the first [c] of [s]. *)
Fixpoint before_first (c : ascii) (s : string) : option string :=
  match s with
  | "" => None
  | String d s' =>
      if Ascii.eqb d c then Some ""
      else option_map (String d) (before_first c s')
  end.

(** The array that a generated header ends with, read from its text: the
    bytes of the initializer between the last opening brace of the text
    and the closing brace after it. *)
Definition array_of_source (text : string) : option (list byte) :=
  match after_last "{" text with
  | Some rest =>
      match before_first "}" rest with
      | Some body => unhexdump body
      | None => None
      end
  | None => None
  end.

(** The same array, read from the bytes of the file: every byte of the
    file is one character of the text that is read. *)
Definition array_of_file (data : list byte) : option (list byte) :=
  array_of_source (string_of_list_byte data).

(** The line the callback of [writeHtmlGzipped] prints when the inliner
    is done. *)
Definition inlined_line (html : string) : event :=
  Info ("Inlined " +:+ decimal (String.length html) +:+ " characters").

(** The bytes [block] followed by what was read of the rest, if it was read. *)
Definition and_then (block : list byte) (rest : option (list byte)) : option (list byte) :=
  option_map (app block) rest.

End Obs.

(** ** A small configuration to run the definitions on *)

Module Demo.

Import Js Cdata.

(** Stand-ins of the right types: an inliner for documents without
    references, a compressor that stores its input, minifiers that change
    nothing. *)
Definition inline_plain (fs : gmap string node) (path : string) : option exn * option string :=
  match fs !! path with
  | Some (File data) => (None, Some (toString_ascii data))
  | Some (Denied reason) => (Some (Error reason), None)
  | None => (Some (Error (enoent path)), None)
  end.

Definition store (text : string) : exn + list byte := inr (list_byte_of_string text).

Definition unstore (data : list byte) : option string := Some (string_of_list_byte data).

Definition pkg (v : option string) : package :=
  {| version := v;
     repo := Some {| url := Some "git+https://github.com/Ecstxsy/WLED.git" |} |}.

Definition env_with (v : option string) : Env :=
  {| packageJson := pkg v;
     inliner := inline_plain;
     zlib_gzip := store;
     CleanCSS_minify := Ret;
     MinifyHTML := Ret;
     length_of_undefined := "Cannot read properties of undefined (reading 'length')" |}.

Definition env : Env := env_with (Some "1.2.3").

(** Three entries of the second [writeChunks] call of the script; the
    entries after them are made up: two pages without filter, one with a
    filter and one with a method that the script does not know. *)
Definition PAGE_update : Spec.t :=
  {| Spec.file := "update.htm"; Spec.name := "PAGE_update";
     Spec.prepend := Some "=====("; Spec.append := Some ")=====";
     Spec.method := Some "plaintext"; Spec.filter := Some "html-minify";
     Spec.mangle := None |}.

Definition PAGE_welcome : Spec.t :=
  {| Spec.file := "welcome.htm"; Spec.name := "PAGE_welcome";
     Spec.prepend := Some "=====("; Spec.append := Some ")=====";
     Spec.method := Some "plaintext"; Spec.filter := Some "html-minify";
     Spec.mangle := None |}.

Definition favicon : Spec.t :=
  {| Spec.file := "favicon.ico"; Spec.name := "favicon";
     Spec.prepend := None; Spec.append := None;
     Spec.method := Some "binary"; Spec.filter := None;
     Spec.mangle := None |}.

Definition raw_page : Spec.t :=
  {| Spec.file := "raw.htm"; Spec.name := "PAGE_raw";
     Spec.prepend := Some "=====("; Spec.append := Some ")=====";
     Spec.method := Some "plaintext"; Spec.filter := None;
     Spec.mangle := None |}.

Definition plain_page : Spec.t :=
  {| Spec.file := "plain.htm"; Spec.name := "PAGE_plain";
     Spec.prepend := Some "=====("; Spec.append := Some ")=====";
     Spec.method := Some "plaintext"; Spec.filter := None;
     Spec.mangle := None |}.

Definition odd_filter : Spec.t :=
  {| Spec.file := "update.htm"; Spec.name := "PAGE_update";
     Spec.prepend := Some "=====("; Spec.append := Some ")=====";
     Spec.method := Some "plaintext"; Spec.filter := Some "js-minify";
     Spec.mangle := None |}.

Definition odd_method : Spec.t :=
  {| Spec.file := "favicon.ico"; Spec.name := "favicon";
     Spec.prepend := None; Spec.append := None;
     Spec.method := Some "base64"; Spec.filter := None;
     Spec.mangle := None |}.

Definition disk : gmap string node :=
  <["wled00/data/index.htm" := File (list_byte_of_string "<p>WLED ##VERSION##</p>")]>
  (<["wled00/data/update.htm" := File (list_byte_of_string "<h2>Update ##VERSION##</h2>")]>
  (<["wled00/data/raw.htm" := File [x63; x61; x66; xe9]]>
  (<["wled00/data/plain.htm" := File (list_byte_of_string "WLED ##VERSION##")]>
  (<["wled00/data/favicon.ico" := File [x00; x00; x01]]> ∅)))).

Definition start : world := {| files := disk; trace := [] |}.

End Demo.

(** ** [String.prototype.replace], as the entries of the script use it *)

Module Replace.

Import Js.

(** The text before the first occurrence of [t] in [s], and the text
    after that occurrence. *)
Fixpoint cut_first (t s : string) : option (string * string) :=
  if String.prefix t s then Some ("", drop (String.length t) s)
  else match s with
       | "" => None
       | String c s' =>
           match cut_first t s' with
           | Some (p, r) => Some (String c p, r)
           | None => None
           end
       end.

(** The text before the last occurrence of [t] in [s], and the text
    after that occurrence. *)
Fixpoint cut_last (t s : string) : option (string * string) :=
  match s with
  | "" => if String.prefix t "" then Some ("", "") else None
  | String c s' =>
      match cut_last t s' with
      | Some (p, r) => Some (String c p, r)
      | None => if String.prefix t s then Some ("", drop (String.length t) s) else None
      end
  end.

(** [str.replace(a, b)] for strings [a] and [b], [b] without [$]: the
    first occurrence of [a] only. *)
Definition replace_first (a b str : string) : string :=
  match cut_first a str with
  | Some (p, r) => p +:+ b +:+ r
  | None => str
  end.

(** [str.replace(/a.*b/gms, r)] for literal [a] and [b] and [r] without
    [$]: with the flag [s] the dot matches every character, so the match
    starts at the first [a] and, being greedy, ends with the last [b]
    after it; nothing is left to match after it. *)
Definition replace_span (a b r str : string) : string :=
  match cut_first a str with
  | Some (p, m) =>
      match cut_last b m with
      | Some (_, q) => p +:+ r +:+ q
      | None => str
      end
  | None => str
  end.

(** The first of the literals [pats] that [s] starts with. *)
Definition starts_with_one (pats : list string) (s : string) : option string :=
  find (fun p => String.prefix p s) pats.

(** The scan of [str.replace(/p1|p2|.../g, r)] for non-empty literals:
    [skip] counts the characters of a match still to be passed over. *)
Fixpoint replace_scan (pats : list string) (r : string) (skip : nat) (s : string) : string :=
  match s with
  | "" => ""
  | String c s' =>
      match skip with
      | S k => replace_scan pats r k s'
      | O =>
          match starts_with_one pats s with
          | Some p => r +:+ replace_scan pats r (String.length p - 1) s'
          | None => String c (replace_scan pats r 0 s')
          end
      end
  end.

Definition replace_all (pats : list string) (r str : string) : string :=
  replace_scan pats r 0 str.

End Replace.

(** ** The calls at the end of the script *)

Module Config.

Import Js Replace Cdata.

Definition UI_button : string := "User Interface</button></form>".

(** The [mangle] of [PAGE_settings]. *)
Definition mangle_settings (str : string) : string :=
  replace_all [UI_button] (UI_button +:+ "%DMXMENU%") (replace_first "%" "%%" str).

(** The three replacements that the other settings pages share; [getV]
    is what the body of [GetV] is replaced with. *)
Definition nocss (getV : string) (str : string) : string :=
  replace_span "function GetV" "</script>" getV
    (replace_span "<style>" "</style>" "%CSS%%SCSS%"
       (replace_span ("<link rel=" +:+ dquote +:+ "stylesheet" +:+ dquote) ">" "" str)).

Definition getV_d : string := "function GetV() {var d=document;" +:+ nl.
Definition getV_plain : string := "function GetV() {" +:+ nl.

(** The text that the two pages of the DMX feature are wrapped in. *)
Definition dmx_guard (name body : string) : string :=
  nl +:+ "#ifdef WLED_ENABLE_DMX" +:+ nl
  +:+ body +:+ nl
  +:+ "#else" +:+ nl
  +:+ "const char " +:+ name +:+ "[] PROGMEM = R" +:+ dquote +:+ "=====()=====" +:+ dquote
  +:+ ";" +:+ nl
  +:+ "#endif" +:+ nl.

Definition mangle_settings_dmx (str : string) : string :=
  dmx_guard "PAGE_settings_dmx" (nocss getV_d str).

Definition mangle_usermod (str : string) : string :=
  replace_span ("fetch(" +:+ dquote +:+ "http://") "/win" ("fetch(" +:+ dquote +:+ "/win") str.

Definition mangle_msg (str : string) : string :=
  replace_span "<h2>" "</body>" "<h2>%MSG%</body>" str.

Definition mangle_dmxmap (str : string) : string :=
  dmx_guard "PAGE_dmxmap"
    (replace_all ["function FM() {"; "function FM(){"]
       ("function FM() {%DMXVARS%" +:+ nl) str).

Definition page (file name filter : string) (mangle : option (string -> string)) : Spec.t :=
  {| Spec.file := file; Spec.name := name;
     Spec.prepend := Some "=====("; Spec.append := Some ")=====";
     Spec.method := Some "plaintext"; Spec.filter := Some filter;
     Spec.mangle := mangle |}.

(** The array of the first [writeChunks] call. *)
Definition settings_specs : list Spec.t :=
  [ {| Spec.file := "style.css"; Spec.name := "PAGE_settingsCss";
       Spec.prepend := Some "=====(<style>"; Spec.append := Some "</style>)=====";
       Spec.method := Some "plaintext"; Spec.filter := Some "css-minify";
       Spec.mangle := None |};
    page "settings.htm" "PAGE_settings" "html-minify" (Some mangle_settings);
    page "settings_wifi.htm" "PAGE_settings_wifi" "html-minify" (Some (nocss getV_d));
    page "settings_leds.htm" "PAGE_settings_leds" "html-minify" (Some (nocss getV_d));
    page "settings_dmx.htm" "PAGE_settings_dmx" "html-minify" (Some mangle_settings_dmx);
    page "settings_ui.htm" "PAGE_settings_ui" "html-minify" (Some (nocss getV_d));
    page "settings_sync.htm" "PAGE_settings_sync" "html-minify" (Some (nocss getV_plain));
    page "settings_time.htm" "PAGE_settings_time" "html-minify" (Some (nocss getV_plain));
    page "settings_sec.htm" "PAGE_settings_sec" "html-minify" (Some (nocss getV_d)) ].

(** The array of the second [writeChunks] call. *)
Definition other_specs : list Spec.t :=
  [ page "usermod.htm" "PAGE_usermod" "html-minify" (Some mangle_usermod);
    page "msg.htm" "PAGE_msg" "html-minify" (Some mangle_msg);
    page "dmxmap.htm" "PAGE_dmxmap" "html-minify" (Some mangle_dmxmap);
    page "update.htm" "PAGE_update" "html-minify" None;
    page "welcome.htm" "PAGE_welcome" "html-minify" None;
    page "liveview.htm" "PAGE_liveview" "html-minify" None;
    {| Spec.file := "favicon.ico"; Spec.name := "favicon";
       Spec.prepend := None; Spec.append := None;
       Spec.method := Some "binary"; Spec.filter := None;
       Spec.mangle := None |} ].

Definition index_htm : string := "wled00/data/index.htm".
Definition html_ui_h : string := "wled00/html_ui.h".
Definition html_settings_h : string := "wled00/html_settings.h".
Definition html_other_h : string := "wled00/html_other.h".

(** The three calls of the script.  [writeHtmlGzipped] returns once the
    inliner is created; the inliner and its callback are left to the
    event loop, which runs them when the two [writeChunks] calls, which
    are synchronous, are over, and not at all when one of these throws. *)
Definition script `{Env} : M (M unit) :=
  let* later := writeHtmlGzipped index_htm html_ui_h in
  writeChunks "wled00/data" settings_specs html_settings_h ;;;
  writeChunks "wled00/data" other_specs html_other_h ;;;
  ret later.

End Config.

(** ** Notions and a configuration for the further properties *)

Module Known.

Import Cdata.

(** The filters that [filter] knows, and no filter at all. *)
Definition known_filter (type : option string) : bool :=
  match type with
  | None => true
  | Some t => String.eqb t "css-minify" || String.eqb t "html-minify"
  end.

Definition known_spec (s : Spec.t) : bool :=
  (method_is s "plaintext" || method_is s "binary") && known_filter (Spec.filter s).

(** A warning of one text, as [filter] and [specToChunk] print them. *)
Definition is_plain_warning (e : event) : bool :=
  match e with
  | Warn [_] => true
  | _ => false
  end.

End Known.

Module Trial.

Import Js Cdata.

(** A stand-in for a markup minifier that gives up on a paragraph that is
    not closed. *)
Definition strict_minify (text : string) : outcome string :=
  if includes text "<p>" && negb (includes text "</p>")
  then Throw (Error "Parse Error: <p>")
  else Ret text.

Definition strict_env : Env :=
  {| packageJson := Demo.pkg (Some "1.2.3");
     inliner := Demo.inline_plain;
     zlib_gzip := Demo.store;
     CleanCSS_minify := Ret;
     MinifyHTML := strict_minify;
     length_of_undefined := "Cannot read properties of undefined (reading 'length')" |}.

Definition disk : gmap string node :=
  <["wled00/data/update.htm" := File (list_byte_of_string "<p>Update")]>
  (<["wled00/data/welcome.htm" := File (list_byte_of_string "<h2>Welcome</h2>")]> ∅).

(** The files of [Demo.disk] with an output file that cannot be opened. *)
Definition locked : gmap string node :=
  <["wled00/html_other.h" := Denied "EACCES: permission denied, open 'wled00/html_other.h'"]>
  Demo.disk.

End Trial.

(** * Properties *)

(** ** Strings *)

Section Strings.

Import Js.

Lemma append_cons (c : ascii) (s t : string) : String c s +:+ t = String c (s +:+ t).
Proof. reflexivity. Qed.

Lemma append_empty_l (s : string) : "" +:+ s = s.
Proof. reflexivity. Qed.

Lemma append_empty_r (s : string) : s +:+ "" = s.
Proof. induction s as [|c s IH]; [reflexivity | now rewrite append_cons, IH]. Qed.

Lemma append_assoc (a b c : string) : (a +:+ b) +:+ c = a +:+ (b +:+ c).
Proof. induction a as [|x a IH]; [reflexivity | now rewrite !append_cons, IH]. Qed.

Lemma length_append (a b : string) :
  String.length (a +:+ b) = String.length a + String.length b.
Proof. induction a as [|x a IH]; [reflexivity | rewrite append_cons; simpl; now rewrite IH]. Qed.

Lemma prefix_cons (a b : ascii) (p s : string) :
  String.prefix (String a p) (String b s) = true <-> a = b /\ String.prefix p s = true.
Proof.
  simpl. destruct (ascii_dec a b) as [->|Hne].
  - split; [intros Hp; split; [reflexivity | exact Hp] | intros [_ Hp]; exact Hp].
  - split; [discriminate | intros [Heq _]; contradiction].
Qed.

Lemma prefix_empty_l (s : string) : String.prefix "" s = true.
Proof. destruct s; reflexivity. Qed.

Lemma prefix_empty_r (p : string) : String.prefix p "" = true -> p = "".
Proof. destruct p; [reflexivity | discriminate]. Qed.

Lemma prefix_iff (p s : string) :
  String.prefix p s = true <-> exists r, s = p +:+ r.
Proof.
  revert s. induction p as [|a p IH]; intros s.
  - rewrite prefix_empty_l. split; [intros _; now exists s | reflexivity].
  - destruct s as [|b s].
    + split; [discriminate | intros [r Hr]; discriminate].
    + rewrite prefix_cons, IH. split.
      * intros [-> [r ->]]. now exists r.
      * intros [r Hr]. rewrite append_cons in Hr. injection Hr as -> ->. split; [reflexivity | now exists r].
Qed.

Lemma prefix_append (p r : string) : String.prefix p (p +:+ r) = true.
Proof. apply prefix_iff. now exists r. Qed.

Lemma drop_append (p r : string) : drop (String.length p) (p +:+ r) = r.
Proof. induction p as [|a p IH]; [now destruct r | exact IH]. Qed.

Lemma drop_empty (k : nat) : drop k "" = "".
Proof. destruct k; reflexivity. Qed.

(** A prefix of [a +:+ y] ends inside [a], or runs over into [y]. *)
Lemma prefix_app_cases (a : string) :
  forall T y, String.prefix T (a +:+ y) = true ->
    String.prefix T a = true
    \/ exists t, t <> "" /\ T = a +:+ t /\ String.prefix t y = true.
Proof.
  induction a as [|c a IH]; intros T y Hp.
  - destruct T as [|d T]; [left; reflexivity |].
    right. exists (String d T). repeat split; [discriminate | exact Hp].
  - destruct T as [|d T]; [left; reflexivity |].
    rewrite append_cons in Hp.
    apply prefix_cons in Hp as [-> Hp].
    destruct (IH _ _ Hp) as [Hin | (t & Ht & -> & Hty)].
    + left. apply prefix_cons. now split.
    + right. exists t. repeat split; assumption.
Qed.

Lemma includes_cons (c : ascii) (s t : string) :
  includes (String c s) t = String.prefix t (String c s) || includes s t.
Proof. reflexivity. Qed.

Lemma includes_prefix (s t : string) : String.prefix t s = true -> includes s t = true.
Proof. intros Hp. destruct s; simpl; simpl in Hp; rewrite Hp; reflexivity. Qed.

Lemma in_tails1_self (s : string) : s <> "" -> In s (Obs.tails1 s).
Proof. destruct s; [congruence | intros _; now left]. Qed.

Lemma in_tails1_app (a t : string) : t <> "" -> In t (Obs.tails1 (a +:+ t)).
Proof.
  intros Ht. induction a as [|c a IH].
  - now apply in_tails1_self.
  - rewrite append_cons. now right.
Qed.

Lemma compat_of_prefix_app (T a w : string) :
  String.prefix T (a +:+ w) = true -> Obs.compat T a = true.
Proof.
  intros Hp. unfold Obs.compat.
  destruct (prefix_app_cases _ _ _ Hp) as [-> | (t & _ & -> & _)]; [reflexivity |].
  rewrite prefix_append. apply orb_true_r.
Qed.

(** An occurrence of [T] in [v +:+ w] lies in [w] or starts in [v]. *)
Lemma includes_app_right (T v w : string) :
  includes (v +:+ w) T = true ->
  includes w T = true \/ exists u, In u (Obs.tails1 v) /\ Obs.compat T u = true.
Proof.
  induction v as [|c v IH]; intros Hi; [now left |].
  rewrite append_cons in Hi.
  rewrite includes_cons in Hi. apply orb_true_iff in Hi as [Hp | Hi].
  - right. exists (String c v). split; [now left |].
    now apply compat_of_prefix_app with (w := w).
  - destruct (IH Hi) as [Hw | (u & Hu & Hc)]; [now left |].
    right. exists u. split; [now right | exact Hc].
Qed.

(** An occurrence of [T] in [p +:+ y] lies in [p], lies in [y], or starts
    in [p] and ends in [y]. *)
Lemma includes_app_left (T p y : string) :
  includes (p +:+ y) T = true ->
  includes p T = true \/ includes y T = true
  \/ exists t, In t (Obs.tails1 (drop 1 T)) /\ String.prefix t y = true.
Proof.
  induction p as [|c p IH]; intros Hi; [right; now left |].
  rewrite append_cons in Hi.
  rewrite includes_cons in Hi. apply orb_true_iff in Hi as [Hp | Hi].
  - destruct (prefix_app_cases (String c p) _ _ Hp) as [Hin | (t & Ht & -> & Hty)].
    + left. now apply includes_prefix.
    + right; right. exists t. split; [| exact Hty].
      simpl. now apply in_tails1_app.
  - destruct (IH Hi) as [Hin | [Hy | Hs]].
    + left. rewrite includes_cons, Hin. apply orb_true_r.
    + right; now left.
    + right; now right.
Qed.

(** Putting [v] between two texts without [T] forms no [T] when [v] and
    [T] cannot overlap. *)
Lemma includes_sandwich (T p v w : string) :
  Obs.overlap_free T v = true ->
  includes p T = false -> includes w T = false ->
  includes (p +:+ v +:+ w) T = false.
Proof.
  intros Hsafe Hp Hw. unfold Obs.overlap_free in Hsafe.
  apply andb_true_iff in Hsafe as [Hl Hr].
  rewrite forallb_forall in Hl, Hr.
  destruct (includes (p +:+ v +:+ w) T) eqn:Hi; [exfalso | reflexivity].
  apply includes_app_left in Hi as [Hi | [Hi | (t & Ht & Hty)]].
  - congruence.
  - apply includes_app_right in Hi as [Hi | (u & Hu & Hc)]; [congruence |].
    specialize (Hr _ Hu). rewrite Hc in Hr. discriminate.
  - specialize (Hl _ Ht). apply compat_of_prefix_app in Hty.
    rewrite Hty in Hl. discriminate.
Qed.

End Strings.

(** ** [split], [join] and [strReplace] *)

Section Split.

Import Js.

Variable sep : string.
Hypothesis sep_nonempty : sep <> "".

Lemma split_scan_skip (k : nat) (s : string) :
  split_scan sep k s = split_scan sep 0 (drop k s).
Proof.
  revert k. induction s as [|c s IH]; intros k.
  - now rewrite drop_empty.
  - destruct k as [|k]; [reflexivity | apply IH].
Qed.

Lemma split_scan_hit (r : string) :
  split_scan sep 0 (sep +:+ r) = "" :: split_scan sep 0 r.
Proof.
  assert (exists a sep', sep = String a sep') as (a & sep' & E)
    by (destruct sep; [congruence | eauto]).
  transitivity (split_scan sep 0 (String a (sep' +:+ r))); [now rewrite E |].
  cbn [split_scan].
  replace (String a (sep' +:+ r)) with (sep +:+ r) by now rewrite E.
  rewrite prefix_append, split_scan_skip.
  replace (String.length sep - 1) with (String.length sep') by (rewrite E; simpl; lia).
  now rewrite drop_append.
Qed.

Lemma split_scan_miss (c : ascii) (s : string) :
  String.prefix sep (String c s) = false ->
  split_scan sep 0 (String c s) = cons_head c (split_scan sep 0 s).
Proof. intros Hp. cbn [split_scan]. now rewrite Hp. Qed.

Lemma includes_empty : includes "" sep = false.
Proof. destruct sep; [congruence | reflexivity]. Qed.

(** The scan returns the whole text when the separator does not occur,
    and otherwise cuts at an occurrence that no other one precedes. *)
Lemma split_scan_cases (s : string) :
  (includes s sep = false /\ split_scan sep 0 s = [s])
  \/ exists p r, s = p +:+ sep +:+ r /\ includes p sep = false
                 /\ split_scan sep 0 s = p :: split_scan sep 0 r.
Proof.
  induction s as [|c s IH].
  - left. split; [apply includes_empty | reflexivity].
  - destruct (String.prefix sep (String c s)) eqn:Hp.
    + right. apply prefix_iff in Hp as [r Hr]. exists "", r.
      rewrite Hr, append_empty_l. repeat split; [apply includes_empty | apply split_scan_hit].
    + rewrite (split_scan_miss _ _ Hp), includes_cons, Hp.
      destruct IH as [[Hi Hs] | (p & r & -> & Hi & Hs)].
      * left. rewrite Hi, Hs. split; reflexivity.
      * right. exists (String c p), r. rewrite Hs, includes_cons, Hi, orb_false_r.
        repeat split.
        destruct (String.prefix sep (String c p)) eqn:Hq; [| reflexivity].
        apply prefix_iff in Hq as [q Hq].
        rewrite <- append_cons, Hq, append_assoc, prefix_append in Hp. discriminate.
Qed.

Lemma split_scan_nonempty (k : nat) (s : string) : split_scan sep k s <> [].
Proof.
  rewrite split_scan_skip.
  destruct (split_scan_cases (drop k s)) as [[_ ->] | (p & r & _ & _ & ->)]; discriminate.
Qed.

Lemma split_nonempty_sep (s : string) : split sep s = split_scan sep 0 s.
Proof. unfold split. destruct sep; [congruence | reflexivity]. Qed.

(** Induction along the cuts that [split] makes. *)
Lemma split_ind (P : string -> list string -> Prop) :
  (forall s, includes s sep = false -> P s [s]) ->
  (forall p r ps, includes p sep = false -> ps <> [] -> P r ps ->
                  P (p +:+ sep +:+ r) (p :: ps)) ->
  forall s, P s (split sep s).
Proof.
  intros Hone Hcut s. rewrite split_nonempty_sep.
  remember (String.length s) as n eqn:Hn.
  revert s Hn. induction (lt_wf n) as [n _ IH]. intros s ->.
  destruct (split_scan_cases s) as [[Hi ->] | (p & r & -> & Hi & ->)].
  - now apply Hone.
  - apply Hcut; [exact Hi | apply split_scan_nonempty |].
    apply (IH (String.length r)); [| reflexivity].
    rewrite !length_append. destruct sep; [congruence | simpl; lia].
Qed.

Lemma join_cons (glue p : string) (ps : list string) :
  ps <> [] -> join glue (p :: ps) = p +:+ glue +:+ join glue ps.
Proof. destruct ps; [congruence | reflexivity]. Qed.

Lemma join_split (s : string) : join sep (split sep s) = s.
Proof.
  apply (split_ind (fun s ps => join sep ps = s)).
  - reflexivity.
  - intros p r ps _ Hne IH. now rewrite join_cons, IH.
Qed.

Lemma split_pieces_clean (s : string) :
  Forall (fun p => includes p sep = false) (split sep s).
Proof.
  apply (split_ind (fun _ ps => Forall (fun p => includes p sep = false) ps)).
  - intros s' Hi. now constructor.
  - intros p r ps Hi _ IH. now constructor.
Qed.

(** After the replacement no [sep] is left, when the replacement cannot
    overlap with [sep]. *)
Lemma strReplace_clean (s v : string) :
  Obs.overlap_free sep v = true ->
  includes (Cdata.strReplace s sep v) sep = false.
Proof.
  intros Hsafe. unfold Cdata.strReplace.
  apply (split_ind (fun _ ps => includes (join v ps) sep = false)).
  - intros s' Hi. exact Hi.
  - intros p r ps Hi Hne IH. rewrite join_cons by exact Hne.
    now apply includes_sandwich.
Qed.

End Split.

(** ** Computations that only read and print *)

Section ConsoleOnly.

Import Js Cdata Obs.

(** Nothing is printed: the result [r], whatever the trace. *)
Ltac silent r :=
  let fs := fresh "fs" in
  let t := fresh "t" in
  intros fs; exists r, []; split; [constructor | intros t; now rewrite app_nil_r].

Lemma console_only_ret {A} (a : A) : console_only (ret a).
Proof. silent (Ret a). Qed.

Lemma console_only_throw {A} (e : exn) : console_only (@throw A e).
Proof. silent (@Throw A e). Qed.

Lemma console_only_lift {A} (r : outcome A) : console_only (fun w => (r, w)).
Proof. silent r. Qed.

Lemma console_only_info (text : string) : console_only (console_info text).
Proof. intros fs. exists (Ret tt), [Info text]. split; [repeat constructor | reflexivity]. Qed.

Lemma console_only_warn (args : list string) : console_only (console_warn args).
Proof. intros fs. exists (Ret tt), [Warn args]. split; [repeat constructor | reflexivity]. Qed.

Lemma console_only_readFileSync (path : string) : console_only (readFileSync path).
Proof.
  intros fs. unfold readFileSync. cbn [files].
  destruct (fs !! path) as [[data | reason] |]; revert fs.
  - silent (Ret data).
  - silent (@Throw (list byte) (Error reason)).
  - silent (@Throw (list byte) (Error (enoent path))).
Qed.

Lemma console_only_bind {A B} (m : M A) (k : A -> M B) :
  console_only m -> (forall a, console_only (k a)) -> console_only (bind m k).
Proof.
  intros Hm Hk fs. destruct (Hm fs) as (r & evs & Hc & Hrun).
  destruct r as [a | e].
  - destruct (Hk a fs) as (r' & evs' & Hc' & Hrun').
    exists r', (evs ++ evs'). split; [now apply Forall_app |].
    intros t. unfold bind. now rewrite Hrun, Hrun', app_assoc.
  - exists (Throw e), evs. split; [exact Hc |].
    intros t. unfold bind. now rewrite Hrun.
Qed.

Lemma console_only_try_catch {A} (m : M A) (handler : exn -> M A) :
  console_only m -> (forall e, console_only (handler e)) -> console_only (try_catch m handler).
Proof.
  intros Hm Hh fs. destruct (Hm fs) as (r & evs & Hc & Hrun).
  destruct r as [a | e].
  - exists (Ret a), evs. split; [exact Hc |].
    intros t. unfold try_catch. now rewrite Hrun.
  - destruct (Hh e fs) as (r' & evs' & Hc' & Hrun').
    exists r', (evs ++ evs'). split; [now apply Forall_app |].
    intros t. unfold try_catch. now rewrite Hrun, Hrun', app_assoc.
Qed.

Create HintDb console discriminated.

#[local] Hint Resolve console_only_ret console_only_throw console_only_lift
  console_only_info console_only_warn console_only_readFileSync
  console_only_bind console_only_try_catch : console.

Lemma console_only_forEach {A S} (body : A -> S -> M S) (array : list A) :
  (forall a acc, console_only (body a acc)) -> forall acc, console_only (forEach body array acc).
Proof.
  intros Hbody. induction array as [|a rest IH]; intros acc; cbn [forEach]; auto with console.
Qed.

(** A computation that only reads and prints is known from its run on an
    empty trace. *)
Lemma console_only_run {A} (m : M A) (w : world) :
  console_only m ->
  m w = (fst (m {| files := files w; trace := [] |}),
         {| files := files w;
            trace := trace w ++ trace (snd (m {| files := files w; trace := [] |})) |}).
Proof.
  intros Hm. destruct w as [fs t]. cbn [files trace].
  destruct (Hm fs) as (r & evs & _ & Hrun).
  now rewrite (Hrun t), (Hrun []).
Qed.

Lemma console_only_quiet {A} (m : M A) (fs : gmap string node) :
  console_only m -> Forall is_console (trace (snd (m {| files := fs; trace := [] |}))).
Proof. intros Hm. destruct (Hm fs) as (r & evs & Hc & Hrun). now rewrite (Hrun []). Qed.

Context `{Env}.

Lemma console_only_filter (str : string) (type : option string) :
  console_only (filter str type).
Proof.
  unfold filter. destruct type as [t |]; [| auto with console].
  destruct (String.eqb t "css-minify"); [auto with console |].
  destruct (String.eqb t "html-minify"); auto with console.
Qed.

#[local] Hint Resolve console_only_filter : console.

Lemma console_only_specToChunk (srcDir : string) (s : Spec.t) :
  console_only (specToChunk srcDir s).
Proof.
  unfold specToChunk.
  destruct (method_is s "plaintext"); [| destruct (method_is s "binary")];
    auto 6 with console.
Qed.

#[local] Hint Resolve console_only_specToChunk : console.

Lemma console_only_appendChunk (srcDir : string) (s : Spec.t) (src : string) :
  console_only (appendChunk srcDir s src).
Proof. unfold appendChunk. auto 8 with console. Qed.

(** The whole pass of [writeChunks] over the specs only reads and prints. *)
Lemma console_only_pass (srcDir : string) (specs : list Spec.t) (src : string) :
  console_only (forEach (appendChunk srcDir) specs src).
Proof. apply console_only_forEach. intros s acc. apply console_only_appendChunk. Qed.

End ConsoleOnly.

(** ** The batch of [writeChunks] *)

Section Batch.

Import Js Cdata Obs.

Context `{Env}.
Variable srcDir : string.

Lemma appendChunk_run (s : Spec.t) (src : string) (fs : gmap string node) (t : list event) :
  appendChunk srcDir s src {| files := fs; trace := t |}
  = (Ret (src +:+ contribution fs srcDir s),
     {| files := fs; trace := t ++ chunk_events fs srcDir s |}).
Proof.
  destruct (console_only_specToChunk srcDir s fs) as (r & evs & _ & Hrun).
  unfold appendChunk, try_catch, bind, console_info, console_warn, emit, ret,
    contribution, chunk_events.
  cbn [files trace]. rewrite Hrun, (Hrun []). cbn [fst snd trace].
  destruct r as [chunk | e]; cbn [files trace app].
  - now rewrite app_nil_r, <- !app_assoc.
  - now rewrite append_empty_r, <- !app_assoc.
Qed.

Lemma forEach_run (specs : list Spec.t) :
  forall (src : string) (fs : gmap string node) (t : list event),
    forEach (appendChunk srcDir) specs src {| files := fs; trace := t |}
    = (Ret (src +:+ concat_all (map (contribution fs srcDir) specs)),
       {| files := fs; trace := t ++ concat (map (chunk_events fs srcDir) specs) |}).
Proof.
  induction specs as [|s rest IH]; intros src fs t; cbn [forEach map concat_all fold_right concat].
  - unfold ret. now rewrite append_empty_r, app_nil_r.
  - unfold bind. rewrite appendChunk_run, IH.
    fold (concat_all (map (contribution fs srcDir) rest)).
    now rewrite append_assoc, <- app_assoc.
Qed.

Lemma chunk_events_quiet (fs : gmap string node) (s : Spec.t) :
  Forall is_console (chunk_events fs srcDir s).
Proof.
  unfold chunk_events. rewrite !Forall_app. repeat split.
  - repeat constructor.
  - apply console_only_quiet, console_only_specToChunk.
  - destruct (fst _); repeat constructor.
Qed.

Lemma batch_events_quiet (fs : gmap string node) (specs : list Spec.t) :
  Forall is_console (concat (map (chunk_events fs srcDir) specs)).
Proof.
  induction specs as [|s rest IH]; cbn [map concat]; [constructor |].
  apply Forall_app. split; [apply chunk_events_quiet | exact IH].
Qed.

(** [writeChunks] is the run over the specs, one line on the console, and
    then one call of [fs.writeFileSync]. *)
Lemma writeChunks_run (specs : list Spec.t) (resultFile : string) (w : world) :
  writeChunks srcDir specs resultFile w
  = writeFileSync resultFile (chunks_text (files w) srcDir specs)
      {| files := files w;
         trace := trace w ++ concat (map (chunk_events (files w) srcDir) specs)
                  ++ [Info ("Writing "
                            +:+ decimal (String.length (chunks_text (files w) srcDir specs))
                            +:+ " characters into " +:+ resultFile)] |}.
Proof.
  destruct w as [fs t]. unfold writeChunks, bind at 1. rewrite forEach_run.
  unfold bind, console_info, emit, chunks_text. cbn [files trace].
  now rewrite <- app_assoc.
Qed.

Lemma writeFileSync_ok (path text : string) (w : world) :
  writable (files w) path = true ->
  writeFileSync path text w
  = (Ret tt, {| files := <[path := File (utf8 text)]> (files w);
                trace := trace w ++ [Written path text] |}).
Proof.
  unfold writable, writeFileSync.
  destruct (files w !! path) as [[data | reason] |]; [reflexivity | discriminate | reflexivity].
Qed.

Lemma concat_all_app (xs ys : list string) :
  concat_all (xs ++ ys) = concat_all xs +:+ concat_all ys.
Proof.
  induction xs as [|x xs IH]; cbn [app concat_all fold_right]; [reflexivity |].
  fold (concat_all (xs ++ ys)). fold (concat_all xs). now rewrite IH, append_assoc.
Qed.

End Batch.

(** ** [hexdump] *)

Section Hexdump.

Import Js Cdata Obs.

Lemma decimal_inj (a b : nat) : decimal a = decimal b -> a = b.
Proof.
  unfold decimal. intros E.
  assert (Hnn : forall n, Nat.to_uint n <> Decimal.Nil).
  { intros n. rewrite <- (DecimalNat.Unsigned.of_to n) at 1.
    rewrite DecimalNat.Unsigned.to_of. apply DecimalFacts.unorm_nonnil. }
  apply DecimalNat.Unsigned.to_uint_inj.
  assert (Some (Nat.to_uint a) = Some (Nat.to_uint b)) as [= ->]; [| reflexivity].
  rewrite <- (NilZero.usu _ (Hnn a)), <- (NilZero.usu _ (Hnn b)). now rewrite E.
Qed.

Lemma hexbyte_length (b : byte) : String.length (hexbyte b) = 4.
Proof. destruct b; reflexivity. Qed.

Lemma hexbytes_length (block : list byte) :
  block <> [] ->
  String.length (join ", " (map hexbyte block)) + 2 = 6 * length block.
Proof.
  induction block as [|b rest IH]; [congruence | intros _].
  destruct rest as [|b' rest].
  - cbn [map join String.concat]. rewrite hexbyte_length. reflexivity.
  - change (map hexbyte (b :: b' :: rest)) with (hexbyte b :: map hexbyte (b' :: rest)).
    rewrite join_cons by discriminate.
    rewrite !length_append, hexbyte_length.
    cbn [String.length length] in *. specialize (IH ltac:(discriminate)). lia.
Qed.

Lemma hexline_length (block : list byte) :
  block <> [] -> String.length (hexline block) = 6 * length block.
Proof.
  intros Hne. unfold hexline. rewrite length_append.
  pose proof (hexbytes_length block Hne). cbn [String.length]. lia.
Qed.

Lemma slice_length (i : nat) (buffer : list byte) :
  length (slice i (i + 16) buffer) = Nat.min 16 (length buffer - i).
Proof. unfold slice. rewrite length_firstn, length_skipn. lia. Qed.

Lemma hexdump_from_done (fuel i : nat) (buffer : list byte) :
  length buffer <= i -> hexdump_from fuel i buffer = [].
Proof.
  intros Hi. destruct fuel as [|fuel]; [reflexivity |]. cbn [hexdump_from].
  destruct (Nat.ltb_spec i (length buffer)); [lia | reflexivity].
Qed.

Lemma hexdump_from_step (fuel i : nat) (buffer : list byte) :
  i < length buffer ->
  hexdump_from (S fuel) i buffer
  = hexline (slice i (i + 16) buffer) :: hexdump_from fuel (i + 16) buffer.
Proof.
  intros Hi. cbn [hexdump_from].
  destruct (Nat.ltb_spec i (length buffer)); [reflexivity | lia].
Qed.

(** The length of the text printed from index [i] on, with enough fuel. *)
Lemma hexdump_from_length (fuel : nat) :
  forall (i : nat) (buffer : list byte),
    i < length buffer -> length buffer - i <= fuel ->
    String.length (join ("," +:+ nl) (hexdump_from fuel i buffer)) + 2
    = 6 * (length buffer - i) + 2 * ((length buffer - i + 15) / 16).
Proof.
  induction fuel as [|fuel IH]; intros i buffer Hi Hfuel; [lia |].
  rewrite hexdump_from_step by exact Hi.
  assert (Hblock : slice i (i + 16) buffer <> []).
  { intros E. pose proof (slice_length i buffer) as Hl. rewrite E in Hl. cbn [length] in Hl. lia. }
  destruct (Nat.le_gt_cases (length buffer) (i + 16)) as [Hlast | Hmore].
  - rewrite hexdump_from_done by exact Hlast. cbn [join String.concat].
    rewrite hexline_length, slice_length by exact Hblock.
    replace ((length buffer - i + 15) / 16) with 1; [lia |].
    apply Nat.div_unique with (r := length buffer - i - 1); lia.
  - destruct fuel as [|fuel']; [lia |].
    specialize (IH (i + 16) buffer Hmore ltac:(lia)).
    rewrite hexdump_from_step in IH |- * by exact Hmore.
    rewrite join_cons by discriminate.
    rewrite !length_append, hexline_length, slice_length by exact Hblock.
    replace ((length buffer - i + 15) / 16)
      with (S ((length buffer - (i + 16) + 15) / 16)).
    + change (String.length ",") with 1. change (String.length nl) with 1. lia.
    + replace (length buffer - i + 15) with (length buffer - (i + 16) + 15 + 1 * 16) by lia.
      rewrite Nat.div_add by lia. lia.
Qed.

Lemma hexdump_empty : hexdump [] = "".
Proof. reflexivity. Qed.

(** A buffer of [n > 0] bytes is printed in [6n + 2 (ceil (n/16) - 1)]
    characters: four for a byte, two for what separates it from the next
    or indents its line. *)
Lemma hexdump_length (buffer : list byte) :
  buffer <> [] ->
  String.length (hexdump buffer) + 2
  = 6 * length buffer + 2 * ((length buffer + 15) / 16).
Proof.
  intros Hne. unfold hexdump.
  assert (0 < length buffer) by (destruct buffer; [congruence | simpl; lia]).
  rewrite hexdump_from_length by lia. now rewrite Nat.sub_0_r.
Qed.

Lemma hexdump_longer (buffer : list byte) :
  buffer <> [] -> length buffer < String.length (hexdump buffer).
Proof.
  intros Hne. pose proof (hexdump_length buffer Hne).
  assert (0 < length buffer) by (destruct buffer; [congruence | simpl; lia]).
  assert (1 <= (length buffer + 15) / 16); [| lia].
  apply Nat.div_le_lower_bound; lia.
Qed.

End Hexdump.

(** ** Reading a hexdump back *)

Section Unhexdump.

Import Js Cdata Obs.

Lemma unhexdump_separator (c : ascii) (s : string) :
  is_separator c = true -> unhexdump (String c s) = unhexdump s.
Proof. intros Hc. cbn [unhexdump]. now rewrite Hc. Qed.

Lemma hexbyte_shape (b : byte) :
  exists h l hi lo,
    hexbyte b = String "0" (String "x" (String h (String l "")))
    /\ hex_value h = Some hi /\ hex_value l = Some lo
    /\ byte_of_ascii (ascii_of_N (16 * hi + lo)) = b.
Proof. destruct b; do 4 eexists; repeat split; reflexivity. Qed.

Lemma unhexdump_hexbyte (b : byte) (s : string) :
  unhexdump (hexbyte b +:+ s) = and_then [b] (unhexdump s).
Proof.
  destruct (hexbyte_shape b) as (h & l & hi & lo & -> & Hh & Hl & Hb).
  rewrite !append_cons, append_empty_l. cbn [unhexdump].
  change (is_separator "0") with false. cbv iota.
  change (Ascii.eqb "0" "0" && Ascii.eqb "x" "x") with true. cbv iota.
  rewrite Hh, Hl, Hb. now destruct (unhexdump s).
Qed.

Lemma unhexdump_indent (s : string) : unhexdump ("  " +:+ s) = unhexdump s.
Proof. reflexivity. Qed.

Lemma unhexdump_comma_blank (s : string) : unhexdump (", " +:+ s) = unhexdump s.
Proof. reflexivity. Qed.

Lemma unhexdump_line_break (s : string) : unhexdump ("," +:+ nl +:+ s) = unhexdump s.
Proof. reflexivity. Qed.

Lemma and_then_app (xs ys : list byte) (rest : option (list byte)) :
  and_then xs (and_then ys rest) = and_then (xs ++ ys) rest.
Proof. destruct rest; cbn; [now rewrite app_assoc | reflexivity]. Qed.

Lemma and_then_nil (rest : option (list byte)) : and_then [] rest = rest.
Proof. now destruct rest. Qed.

Lemma unhexdump_hexbytes (block : list byte) (s : string) :
  unhexdump (join ", " (map hexbyte block) +:+ s) = and_then block (unhexdump s).
Proof.
  induction block as [|b rest IH].
  - cbn [map join String.concat]. now rewrite append_empty_l, and_then_nil.
  - destruct rest as [|b' rest].
    + cbn [map join String.concat]. apply unhexdump_hexbyte.
    + change (map hexbyte (b :: b' :: rest)) with (hexbyte b :: map hexbyte (b' :: rest)).
      rewrite join_cons by discriminate.
      rewrite !append_assoc, unhexdump_hexbyte, unhexdump_comma_blank, IH.
      apply (and_then_app [b]).
Qed.

Lemma unhexdump_hexline (block : list byte) (s : string) :
  unhexdump (hexline block +:+ s) = and_then block (unhexdump s).
Proof.
  unfold hexline. rewrite append_assoc, unhexdump_indent.
  apply unhexdump_hexbytes.
Qed.

Lemma slice_skipn (i : nat) (buffer : list byte) :
  slice i (i + 16) buffer ++ skipn (i + 16) buffer = skipn i buffer.
Proof.
  unfold slice. replace (i + 16 - i) with 16 by lia.
  rewrite Nat.add_comm, <- skipn_skipn. apply firstn_skipn.
Qed.

Lemma unhexdump_from (fuel : nat) :
  forall (i : nat) (buffer : list byte) (s : string),
    length buffer - i <= fuel ->
    unhexdump (join ("," +:+ nl) (hexdump_from fuel i buffer) +:+ s)
    = and_then (skipn i buffer) (unhexdump s).
Proof.
  induction fuel as [|fuel IH]; intros i buffer s Hfuel.
  - cbn [hexdump_from join String.concat].
    rewrite skipn_all2 by lia. now rewrite append_empty_l, and_then_nil.
  - destruct (Nat.le_gt_cases (length buffer) i) as [Hdone | Hi].
    + rewrite hexdump_from_done by exact Hdone. cbn [join String.concat].
      rewrite skipn_all2 by lia. now rewrite append_empty_l, and_then_nil.
    + rewrite hexdump_from_step by exact Hi.
      destruct (Nat.le_gt_cases (length buffer) (i + 16)) as [Hlast | Hmore].
      * rewrite hexdump_from_done by exact Hlast. cbn [join String.concat].
        rewrite unhexdump_hexline. f_equal.
        rewrite <- (slice_skipn i buffer), (skipn_all2 buffer Hlast). symmetry. apply app_nil_r.
      * destruct fuel as [|fuel']; [lia |].
        specialize (IH (i + 16) buffer s ltac:(lia)).
        rewrite hexdump_from_step in IH |- * by exact Hmore.
        rewrite join_cons by discriminate.
        rewrite !append_assoc, unhexdump_hexline, unhexdump_line_break.
        rewrite IH, and_then_app. now rewrite slice_skipn.
Qed.

(** What [hexdump] prints reads back as the buffer, whole: the fuel of the
    loop is enough for every buffer. *)
Lemma unhexdump_hexdump (buffer : list byte) : unhexdump (hexdump buffer) = Some buffer.
Proof.
  unfold hexdump. rewrite <- (append_empty_r (join _ _)).
  rewrite unhexdump_from by lia. cbn. now rewrite app_nil_r.
Qed.

End Unhexdump.

(** ** [filter] and [specToChunk], case by case *)

Section Chunks.

Import Js Cdata Obs.

Context `{Env}.
Variable srcDir : string.

Lemma method_is_exclusive (s : Spec.t) (m m' : string) :
  method_is s m = true -> m <> m' -> method_is s m' = false.
Proof.
  unfold method_is. destruct (Spec.method s) as [x |]; [| discriminate].
  intros Hm Hne. apply String.eqb_eq in Hm as ->. now apply String.eqb_neq.
Qed.

Lemma filter_absent (str : string) (w : world) :
  filter str None w = (Ret (adoptVersionAndRepo str), w).
Proof. reflexivity. Qed.

Lemma filter_unknown (str t : string) (w : world) :
  t <> "css-minify" -> t <> "html-minify" ->
  filter str (Some t) w
  = (Ret (adoptVersionAndRepo str),
     {| files := files w; trace := trace w ++ [Warn ["Unknown filter: " +:+ t]] |}).
Proof.
  intros Hcss Hhtml. unfold filter.
  apply String.eqb_neq in Hcss as ->. apply String.eqb_neq in Hhtml as ->.
  reflexivity.
Qed.

Lemma readFileSync_data (path : string) (buf : list byte) (w : world) :
  files w !! path = Some (File buf) -> readFileSync path w = (Ret buf, w).
Proof. intros E. unfold readFileSync. now rewrite E. Qed.

Lemma readFileSync_error (path msg : string) (w : world) :
  read_error (files w) path = Some msg -> readFileSync path w = (Throw (Error msg), w).
Proof.
  unfold read_error, readFileSync.
  destruct (files w !! path) as [[data | reason] |]; [discriminate | |]; now intros [= ->].
Qed.

Lemma specToChunk_plaintext (s : Spec.t) (buf : list byte) (w : world) :
  method_is s "plaintext" = true ->
  files w !! source_path srcDir s = Some (File buf) ->
  specToChunk srcDir s w
  = bind (filter (toString_ascii buf) (Spec.filter s))
      (fun body => ret (Some (mangled s (plaintext_chunk srcDir s body)))) w.
Proof.
  intros Hm Hfile. unfold specToChunk. rewrite Hm.
  unfold bind at 1. fold (source_path srcDir s). now rewrite (readFileSync_data _ _ _ Hfile).
Qed.

Lemma specToChunk_binary (s : Spec.t) (buf : list byte) (w : world) :
  method_is s "binary" = true ->
  files w !! source_path srcDir s = Some (File buf) ->
  specToChunk srcDir s w = (Ret (Some (mangled s (binary_chunk srcDir s (hexdump buf)))), w).
Proof.
  intros Hm Hfile. unfold specToChunk.
  rewrite (method_is_exclusive s "binary" "plaintext" Hm) by discriminate. rewrite Hm.
  unfold bind. fold (source_path srcDir s). now rewrite (readFileSync_data _ _ _ Hfile).
Qed.

Lemma specToChunk_unreadable (s : Spec.t) (msg : string) (w : world) :
  method_is s "plaintext" || method_is s "binary" = true ->
  read_error (files w) (source_path srcDir s) = Some msg ->
  specToChunk srcDir s w = (Throw (Error msg), w).
Proof.
  intros Hm Herr. unfold specToChunk.
  destruct (method_is s "plaintext"); [| destruct (method_is s "binary"); [| discriminate]];
    unfold bind; fold (source_path srcDir s); now rewrite (readFileSync_error _ _ _ Herr).
Qed.

Lemma specToChunk_unknown (s : Spec.t) (w : world) :
  method_is s "plaintext" = false -> method_is s "binary" = false ->
  specToChunk srcDir s w
  = (Ret None,
     {| files := files w;
        trace := trace w ++ [Warn ["Unknown method: " +:+ text_of (Spec.method s)]] |}).
Proof. intros Hp Hb. unfold specToChunk. now rewrite Hp, Hb. Qed.

Lemma toString_ascii_seven_bit (buf : list byte) :
  forallb seven_bit buf = true ->
  toString_ascii buf = text_of_bytes buf /\ utf8 (toString_ascii buf) = buf.
Proof.
  induction buf as [|b buf IH]; [now split |].
  cbn [forallb]. intros [Hb Hrest]%andb_true_iff. destruct (IH Hrest) as [IH1 IH2].
  assert (ascii_char b = ascii_of_byte b /\ utf8 (String (ascii_char b) "") = [b]) as [Hc Hu]
    by (destruct b; try discriminate Hb; split; reflexivity).
  split.
  - cbn [toString_ascii]. unfold text_of_bytes in *. cbn [string_of_list_byte map string_of_list_ascii].
    change (string_of_list_ascii (map ascii_of_byte buf)) with (string_of_list_byte buf).
    now rewrite Hc, IH1.
  - cbn [toString_ascii]. cbn [utf8] in Hu |- *.
    destruct (N_of_ascii (ascii_char b) <? 128)%N; [injection Hu as Hu | discriminate Hu].
    now rewrite Hu, IH2.
Qed.

End Chunks.

(** ** One chunk *)

Section OneChunk.

Import Js Cdata Obs.

Context `{Env}.
Variable srcDir : string.

(** C1, as the script has it: for a spec with method "binary" and no
    mangle, whose source file holds the bytes [buf], at least one, the
    number printed after [_length = ] is the length of the text that
    [hexdump] printed, [6n + 2 (ceil (n/16) - 1)] for [n] bytes.  It is
    greater than [n], the number of bytes of the file, and prints
    differently. *)
Theorem binary_length_counts_characters (s : Spec.t) (w : world) (buf : list byte) :
  method_is s "binary" = true ->
  Spec.mangle s = None ->
  files w !! source_path srcDir s = Some (File buf) ->
  buf <> [] ->
  exists emitted,
    specToChunk srcDir s w
    = (Ret (Some
         (nl +:+ "// Autogenerated from " +:+ srcDir +:+ "/" +:+ Spec.file s
             +:+ ", do not edit!!" +:+ nl
          +:+ "const uint16_t " +:+ Spec.name s +:+ "_length = " +:+ decimal emitted
             +:+ ";" +:+ nl
          +:+ "const uint8_t " +:+ Spec.name s +:+ "[] PROGMEM = {" +:+ nl
          +:+ hexdump buf +:+ nl
          +:+ "};" +:+ nl +:+ nl)), w)
    /\ emitted = String.length (hexdump buf)
    /\ emitted + 2 = 6 * length buf + 2 * ((length buf + 15) / 16)
    /\ length buf < emitted
    /\ decimal emitted <> decimal (length buf).
Proof.
  intros Hm Hmangle Hfile Hne. exists (String.length (hexdump buf)).
  pose proof (hexdump_longer buf Hne) as Hlt.
  repeat split.
  - rewrite (specToChunk_binary srcDir s buf w Hm Hfile). unfold mangled. now rewrite Hmangle.
  - now apply hexdump_length.
  - exact Hlt.
  - intros E%decimal_inj. lia.
Qed.

(** C2, as amended: for a spec with method "plaintext", no filter and no
    mangle, whose source file holds the bytes [buf], the text between the
    prefix and the suffix is the render-context substitution of the file
    read as "ascii" text, where each byte loses its highest bit; when no
    byte of the file has that bit, this text is the file byte for byte,
    also once written out. *)
Theorem plaintext_unfiltered_content (s : Spec.t) (w : world) (buf : list byte) :
  method_is s "plaintext" = true ->
  Spec.filter s = None ->
  Spec.mangle s = None ->
  files w !! source_path srcDir s = Some (File buf) ->
  specToChunk srcDir s w
  = (Ret (Some
       (nl +:+ "// Autogenerated from " +:+ srcDir +:+ "/" +:+ Spec.file s
           +:+ ", do not edit!!" +:+ nl
        +:+ "const char " +:+ Spec.name s +:+ "[] PROGMEM = R" +:+ dquote
        +:+ or_empty (Spec.prepend s)
        +:+ adoptVersionAndRepo (toString_ascii buf)
        +:+ or_empty (Spec.append s)
        +:+ dquote +:+ ";" +:+ nl +:+ nl)), w)
  /\ (forallb seven_bit buf = true ->
      toString_ascii buf = text_of_bytes buf /\ utf8 (toString_ascii buf) = buf).
Proof.
  intros Hm Hfilter Hmangle Hfile. split; [| apply toString_ascii_seven_bit].
  rewrite (specToChunk_plaintext srcDir s buf w Hm Hfile), Hfilter.
  unfold bind. rewrite filter_absent. unfold ret, mangled. now rewrite Hmangle.
Qed.

(** C6: for a plaintext spec whose filter [t] is neither "css-minify" nor
    "html-minify", [filter] prints the warning, raises nothing and returns
    what it returns when the filter is absent; the chunk is rendered, and
    the spec adds to the batch what it adds without its filter. *)
Theorem unknown_filter_passes_through (s : Spec.t) (w : world) (buf : list byte) (t : string) :
  method_is s "plaintext" = true ->
  Spec.filter s = Some t ->
  t <> "css-minify" -> t <> "html-minify" ->
  files w !! source_path srcDir s = Some (File buf) ->
  (forall str,
      filter str (Some t) w
      = (Ret (adoptVersionAndRepo str),
         {| files := files w; trace := trace w ++ [Warn ["Unknown filter: " +:+ t]] |})
      /\ fst (filter str (Some t) w) = fst (filter str None w))
  /\ specToChunk srcDir s w
     = (Ret (Some (mangled s (plaintext_chunk srcDir s
                                (adoptVersionAndRepo (toString_ascii buf))))),
        {| files := files w; trace := trace w ++ [Warn ["Unknown filter: " +:+ t]] |})
  /\ fst (specToChunk srcDir s w) = fst (specToChunk srcDir (without_filter s) w)
  /\ contribution (files w) srcDir s = contribution (files w) srcDir (without_filter s).
Proof.
  intros Hm Hfilter Hcss Hhtml Hfile.
  assert (Hrun : forall w', files w' = files w ->
            specToChunk srcDir s w'
            = (Ret (Some (mangled s (plaintext_chunk srcDir s
                                       (adoptVersionAndRepo (toString_ascii buf))))),
               {| files := files w';
                  trace := trace w' ++ [Warn ["Unknown filter: " +:+ t]] |})).
  { intros w' Hw'. rewrite <- Hw' in Hfile.
    rewrite (specToChunk_plaintext srcDir s buf w' Hm Hfile), Hfilter.
    unfold bind. now rewrite filter_unknown. }
  assert (Hplain : forall w', files w' = files w ->
            specToChunk srcDir (without_filter s) w'
            = (Ret (Some (mangled s (plaintext_chunk srcDir s
                                       (adoptVersionAndRepo (toString_ascii buf))))),
               w')).
  { intros w' Hw'. rewrite <- Hw' in Hfile.
    now rewrite (specToChunk_plaintext srcDir (without_filter s) buf w' Hm Hfile). }
  repeat split.
  - now apply filter_unknown.
  - now rewrite filter_unknown.
  - now apply Hrun.
  - now rewrite Hrun, Hplain.
  - unfold contribution. now rewrite Hrun, Hplain.
Qed.

End OneChunk.

(** ** The output of [writeChunks] *)

Section BatchOutput.

Import Js Cdata Obs.

Context `{Env}.
Variable srcDir : string.

Lemma substring0_length (k : nat) (s : string) :
  String.length (substring0 k s) = Nat.min k (String.length s).
Proof.
  unfold substring0. revert k. induction s as [|c s IH]; intros [|k]; cbn; try reflexivity.
  now rewrite IH.
Qed.

Lemma substring0_prefix (k : nat) (s : string) : String.prefix (substring0 k s) s = true.
Proof.
  unfold substring0. revert k. induction s as [|c s IH]; intros [|k]; try reflexivity.
  cbn [String.substring]. apply prefix_cons. split; [reflexivity | apply IH].
Qed.

Lemma clipped_length (msg : string) : String.length (clipped msg) <= 60.
Proof.
  unfold clipped. destruct (Nat.ltb_spec 60 (String.length msg)); [| lia].
  rewrite substring0_length. lia.
Qed.

Lemma clipped_prefix (msg : string) : String.prefix (clipped msg) msg = true.
Proof.
  unfold clipped. destruct (60 <? String.length msg)%nat; [apply substring0_prefix |].
  apply prefix_iff. exists "". now rewrite append_empty_r.
Qed.

Lemma contribution_at (s : Spec.t) (w : world) :
  contribution (files w) srcDir s
  = match fst (specToChunk srcDir s w) with
    | Ret chunk => text_of chunk
    | Throw _ => ""
    end.
Proof.
  unfold contribution.
  now rewrite (console_only_run (specToChunk srcDir s) w (console_only_specToChunk srcDir s)).
Qed.

Lemma writeChunks_ok (specs : list Spec.t) (resultFile : string) (w : world) :
  writable (files w) resultFile = true ->
  writeChunks srcDir specs resultFile w
  = (Ret tt,
     {| files := <[resultFile := File (utf8 (chunks_text (files w) srcDir specs))]> (files w);
        trace := trace w ++ concat (map (chunk_events (files w) srcDir) specs)
                 ++ [Info ("Writing "
                           +:+ decimal (String.length (chunks_text (files w) srcDir specs))
                           +:+ " characters into " +:+ resultFile);
                     Written resultFile (chunks_text (files w) srcDir specs)] |}).
Proof.
  intros Hw. rewrite writeChunks_run, writeFileSync_ok by exact Hw.
  cbn [files trace]. now rewrite <- !app_assoc.
Qed.

Lemma chunks_text_app (fs : gmap string node) (pre post : list Spec.t) :
  chunks_text fs srcDir (pre ++ post)
  = chunks_header +:+ concat_all (map (contribution fs srcDir) pre)
    +:+ concat_all (map (contribution fs srcDir) post).
Proof. unfold chunks_text. now rewrite map_app, concat_all_app. Qed.

Lemma chunks_text_skip (fs : gmap string node) (pre post : list Spec.t) (s : Spec.t) :
  contribution fs srcDir s = "" ->
  chunks_text fs srcDir (pre ++ s :: post) = chunks_text fs srcDir (pre ++ post).
Proof.
  intros Hs. rewrite !chunks_text_app. cbn [map concat_all fold_right].
  now rewrite Hs, append_empty_l.
Qed.

(** C7: for every sequence of specs and every destination, [writeChunks]
    goes through the specs in order, printing to the console only, and
    then calls [fs.writeFileSync] once, as its last step, with the fixed
    header, the six lines below, followed by what each spec adds, in the
    order of the specs; what a spec adds is the text of what
    [specToChunk], which looks at its method, returns for it.  When the
    destination can be written, the run ends normally and the file holds
    that text. *)
Theorem writeChunks_header_then_chunks (specs : list Spec.t) (resultFile : string) (w : world) :
  let header :=
    "/*" +:+ nl
    +:+ " * More web UI HTML source arrays." +:+ nl
    +:+ " * This file is auto generated, please don't make any changes manually." +:+ nl
    +:+ " * Instead, see https://github.com/Aircoookie/WLED/wiki/Add-own-functionality#web-ui" +:+ nl
    +:+ " * to find out how to easily modify the web UI source!" +:+ nl
    +:+ " */ " +:+ nl in
  let text := header +:+ concat_all (map (contribution (files w) srcDir) specs) in
  let printed :=
    concat (map (chunk_events (files w) srcDir) specs)
    ++ [Info ("Writing " +:+ decimal (String.length text)
              +:+ " characters into " +:+ resultFile)] in
  writeChunks srcDir specs resultFile w
  = writeFileSync resultFile text {| files := files w; trace := trace w ++ printed |}
  /\ Forall is_console printed
  /\ (forall s, contribution (files w) srcDir s
                = match fst (specToChunk srcDir s w) with
                  | Ret chunk => text_of chunk
                  | Throw _ => ""
                  end)
  /\ (writable (files w) resultFile = true ->
      writeChunks srcDir specs resultFile w
      = (Ret tt, {| files := <[resultFile := File (utf8 text)]> (files w);
                    trace := trace w ++ printed ++ [Written resultFile text] |})).
Proof.
  cbv zeta. fold chunks_header. repeat apply conj.
  - apply writeChunks_run.
  - apply Forall_app. split; [apply batch_events_quiet | repeat constructor].
  - intros s. apply contribution_at.
  - intros Hw. rewrite (writeChunks_ok specs resultFile w Hw).
    unfold chunks_text. now rewrite <- !app_assoc.
Qed.

Lemma contribution_unreadable (s : Spec.t) (msg : string) (fs : gmap string node) :
  method_is s "plaintext" || method_is s "binary" = true ->
  read_error fs (source_path srcDir s) = Some msg ->
  contribution fs srcDir s = ""
  /\ In (Warn ["Failed " +:+ Spec.name s +:+ " from " +:+ srcDir +:+ "/" +:+ Spec.file s;
               clipped msg])
        (chunk_events fs srcDir s).
Proof.
  intros Hm Herr. unfold contribution, chunk_events.
  rewrite (specToChunk_unreadable srcDir s msg {| files := fs; trace := [] |} Hm Herr).
  cbn. split; [reflexivity | right; now left].
Qed.

(** C5: when the source file of one spec of the sequence cannot be read,
    [writeChunks] still ends normally; that spec adds nothing to the
    output; the console holds the warning with the name of the asset and
    the message of the error, cut to its first 60 characters when it is
    longer; and the output file is written with the header and what the
    specs before and after it add, the same file as for the sequence
    without that spec. *)
Theorem unreadable_source_is_skipped
    (pre post : list Spec.t) (s : Spec.t) (resultFile msg : string) (w : world) :
  method_is s "plaintext" || method_is s "binary" = true ->
  read_error (files w) (source_path srcDir s) = Some msg ->
  writable (files w) resultFile = true ->
  exists w',
    writeChunks srcDir (pre ++ s :: post) resultFile w = (Ret tt, w')
    /\ contribution (files w) srcDir s = ""
    /\ In (Warn ["Failed " +:+ Spec.name s +:+ " from " +:+ srcDir +:+ "/" +:+ Spec.file s;
                 clipped msg]) (trace w')
    /\ String.length (clipped msg) <= 60
    /\ String.prefix (clipped msg) msg = true
    /\ files w'
       = <[resultFile :=
             File (utf8 (chunks_header
                         +:+ concat_all (map (contribution (files w) srcDir) pre)
                         +:+ concat_all (map (contribution (files w) srcDir) post)))]>
           (files w)
    /\ files w' = files (snd (writeChunks srcDir (pre ++ post) resultFile w)).
Proof.
  intros Hm Herr Hw.
  destruct (contribution_unreadable s msg (files w) Hm Herr) as [Hnone Hwarn].
  eexists. split; [apply (writeChunks_ok _ _ _ Hw) |].
  cbn [files trace]. repeat apply conj.
  - exact Hnone.
  - apply in_or_app. right. apply in_or_app. left.
    rewrite map_app, concat_app. apply in_or_app. right.
    cbn [map concat]. apply in_or_app. now left.
  - apply clipped_length.
  - apply clipped_prefix.
  - now rewrite (chunks_text_skip _ _ _ _ Hnone), chunks_text_app.
  - rewrite (writeChunks_ok _ _ _ Hw). cbn [snd files].
    now rewrite (chunks_text_skip _ _ _ _ Hnone).
Qed.

(** C10: for a spec whose method is neither "plaintext" nor "binary",
    [specToChunk] prints a warning and returns [undefined]; the spec then
    adds the nine characters [undefined] to the buffer of [writeChunks],
    and the output file holds them between what the specs before and
    after it add. *)
Theorem unknown_method_adds_undefined (s : Spec.t) :
  method_is s "plaintext" = false ->
  method_is s "binary" = false ->
  (forall w,
      specToChunk srcDir s w
      = (Ret None,
         {| files := files w;
            trace := trace w ++ [Warn ["Unknown method: " +:+ text_of (Spec.method s)]] |}))
  /\ (forall fs, contribution fs srcDir s = "undefined")
  /\ String.length "undefined" = 9
  /\ (forall pre post resultFile w,
         writable (files w) resultFile = true ->
         exists w',
           writeChunks srcDir (pre ++ s :: post) resultFile w = (Ret tt, w')
           /\ files w' !! resultFile
              = Some (File (utf8 (chunks_header
                                  +:+ concat_all (map (contribution (files w) srcDir) pre)
                                  +:+ "undefined"
                                  +:+ concat_all (map (contribution (files w) srcDir) post))))).
Proof.
  intros Hp Hb.
  assert (Hc : forall fs, contribution fs srcDir s = "undefined").
  { intros fs. unfold contribution. now rewrite specToChunk_unknown. }
  repeat apply conj.
  - intros w. now apply specToChunk_unknown.
  - exact Hc.
  - reflexivity.
  - intros pre post resultFile w Hw. eexists.
    split; [apply (writeChunks_ok _ _ _ Hw) |].
    cbn [files]. rewrite lookup_insert_eq, chunks_text_app.
    cbn [map concat_all fold_right]. now rewrite Hc.
Qed.

End BatchOutput.

(** ** Reading a generated header back *)

Section Reader.

Import Js Cdata Obs.

Lemma every_append (p : ascii -> bool) (a b : string) :
  every p (a +:+ b) = every p a && every p b.
Proof.
  induction a as [|d a IH]; [now rewrite append_empty_l |].
  rewrite append_cons. cbn [every]. rewrite IH. now rewrite andb_assoc.
Qed.

Lemma lacks_append (c : ascii) (a b : string) :
  lacks c (a +:+ b) = lacks c a && lacks c b.
Proof. apply every_append. Qed.

Lemma after_last_lacks (c : ascii) (s : string) : lacks c s = true -> after_last c s = None.
Proof.
  unfold lacks. induction s as [|d s IH]; [reflexivity |]. cbn [every after_last].
  intros [Hd Hs]%andb_prop. rewrite (IH Hs).
  now destruct (Ascii.eqb d c).
Qed.

(** A [c] further to the right is found first. *)
Lemma after_last_skip (c : ascii) (a b rest : string) :
  after_last c b = Some rest -> after_last c (a +:+ b) = Some rest.
Proof.
  intros Hb. induction a as [|d a IH]; [now rewrite append_empty_l |].
  rewrite append_cons. cbn [after_last]. now rewrite IH.
Qed.

Lemma after_last_here (c : ascii) (rest : string) :
  lacks c rest = true -> after_last c (String c rest) = Some rest.
Proof.
  intros Hrest. cbn [after_last]. rewrite (after_last_lacks _ _ Hrest).
  now rewrite Ascii.eqb_refl.
Qed.

Lemma before_first_here (c : ascii) (body rest : string) :
  lacks c body = true -> before_first c (body +:+ String c rest) = Some body.
Proof.
  unfold lacks. induction body as [|d body IH].
  - intros _. rewrite append_empty_l. cbn [before_first]. now rewrite Ascii.eqb_refl.
  - rewrite append_cons. cbn [every before_first]. intros [Hd Hbody]%andb_prop.
    destruct (Ascii.eqb d c); [discriminate |]. now rewrite (IH Hbody).
Qed.

Section Alphabet.

(** A test that every character printed by [hexdump] passes. *)
Variable p : ascii -> bool.
Hypothesis p_digits : forall b : byte, every p (hexbyte b) = true.
Hypothesis p_blanks : every p (", " +:+ "," +:+ nl) = true.

Lemma p_comma_blank : every p ", " = true.
Proof. rewrite every_append in p_blanks. now apply andb_prop in p_blanks as [-> _]. Qed.

Lemma p_line_break : every p ("," +:+ nl) = true.
Proof. rewrite every_append in p_blanks. now apply andb_prop in p_blanks as [_ ->]. Qed.

Lemma every_hexbytes (block : list byte) : every p (join ", " (map hexbyte block)) = true.
Proof.
  induction block as [|b rest IH]; [reflexivity |].
  destruct rest as [|b' rest]; [apply p_digits |].
  change (map hexbyte (b :: b' :: rest)) with (hexbyte b :: map hexbyte (b' :: rest)).
  rewrite join_cons by discriminate.
  now rewrite every_append, p_digits, every_append, p_comma_blank, IH.
Qed.

Lemma every_hexline (block : list byte) : every p (hexline block) = true.
Proof.
  unfold hexline. rewrite every_append, every_hexbytes, andb_true_r.
  pose proof p_comma_blank as Hc. cbn [every] in Hc |- *.
  apply andb_prop in Hc as [_ Hb]. now rewrite !Hb.
Qed.

Lemma every_hexdump_from (fuel : nat) :
  forall (i : nat) (buffer : list byte),
    every p (join ("," +:+ nl) (hexdump_from fuel i buffer)) = true.
Proof.
  induction fuel as [|fuel IH]; intros i buffer; [reflexivity |].
  cbn [hexdump_from]. destruct (i <? length buffer)%nat; [| reflexivity].
  specialize (IH (i + 16) buffer).
  destruct (hexdump_from fuel (i + 16) buffer) as [|line lines] eqn:Hrest.
  - apply every_hexline.
  - rewrite join_cons by discriminate.
    now rewrite every_append, every_hexline, every_append, p_line_break, IH.
Qed.

Lemma every_hexdump (buffer : list byte) : every p (hexdump buffer) = true.
Proof. apply every_hexdump_from. Qed.

End Alphabet.

Lemma hexdump_no_opening_brace (buffer : list byte) : lacks "{" (hexdump buffer) = true.
Proof. apply every_hexdump; [intros b; destruct b; reflexivity | reflexivity]. Qed.

Lemma hexdump_no_closing_brace (buffer : list byte) : lacks "}" (hexdump buffer) = true.
Proof. apply every_hexdump; [intros b; destruct b; reflexivity | reflexivity]. Qed.

Lemma hexdump_seven_bit (buffer : list byte) : every seven_bit_char (hexdump buffer) = true.
Proof. apply every_hexdump; [intros b; destruct b; reflexivity | reflexivity]. Qed.

Lemma unhexdump_hexdump_then (buffer : list byte) (s : string) :
  unhexdump (hexdump buffer +:+ s) = and_then buffer (unhexdump s).
Proof. unfold hexdump. now rewrite unhexdump_from by lia. Qed.

(** The array between the braces of a text that ends like the header of
    the index page, whatever comes before the opening brace. *)
Lemma array_of_source_tail (before : string) (buffer : list byte) :
  array_of_source (before +:+ "{" +:+ nl +:+ hexdump buffer +:+ nl +:+ "};" +:+ nl)
  = Some buffer.
Proof.
  unfold array_of_source.
  rewrite (after_last_skip "{" before _ (nl +:+ hexdump buffer +:+ nl +:+ "};" +:+ nl)).
  - change ("};" +:+ nl) with (String "}" (";" +:+ nl)).
    rewrite <- 2!append_assoc.
    rewrite before_first_here.
    + rewrite append_assoc. change (nl +:+ ?x) with (String "010" x).
      rewrite unhexdump_separator by reflexivity.
      rewrite unhexdump_hexdump_then. cbn. now rewrite app_nil_r.
    + rewrite !lacks_append, hexdump_no_closing_brace. reflexivity.
  - change ("{" +:+ ?x) with (String "{" x). apply after_last_here.
    rewrite !lacks_append, hexdump_no_opening_brace. reflexivity.
Qed.

Lemma utf8_append (a b : string) : utf8 (a +:+ b) = utf8 a ++ utf8 b.
Proof.
  induction a as [|c a IH]; [now rewrite append_empty_l |].
  rewrite append_cons. cbn [utf8]. rewrite IH.
  now destruct (N_of_ascii c <? 128)%N.
Qed.

Lemma string_of_list_byte_app (xs ys : list byte) :
  string_of_list_byte (xs ++ ys) = string_of_list_byte xs +:+ string_of_list_byte ys.
Proof.
  unfold string_of_list_byte.
  induction xs as [|x xs IH]; [now rewrite append_empty_l |].
  cbn [app map string_of_list_ascii]. now rewrite IH, append_cons.
Qed.

(** A text of seven-bit characters is stored byte for character. *)
Lemma utf8_seven_bit (s : string) :
  every seven_bit_char s = true -> string_of_list_byte (utf8 s) = s.
Proof.
  induction s as [|c s IH]; [reflexivity |]. cbn [every utf8].
  intros [Hc Hs]%andb_prop. unfold seven_bit_char in Hc. rewrite Hc.
  unfold string_of_list_byte in IH |- *. cbn [map string_of_list_ascii].
  now rewrite ascii_of_byte_of_ascii, (IH Hs).
Qed.

(** The same for the bytes of the file that holds such a text. *)
Lemma array_of_file_tail (before : string) (buffer : list byte) :
  array_of_file (utf8 (before +:+ "{" +:+ nl +:+ hexdump buffer +:+ nl +:+ "};" +:+ nl))
  = Some buffer.
Proof.
  unfold array_of_file. rewrite utf8_append, string_of_list_byte_app.
  rewrite (utf8_seven_bit ("{" +:+ _)).
  - apply array_of_source_tail.
  - rewrite !every_append, hexdump_seven_bit. reflexivity.
Qed.

End Reader.

(** ** The gzipped index page *)

Section IndexPage.

Import Js Cdata Obs.

Context `{Env}.

(** The call of [writeHtmlGzipped]: one line, and the inliner is left to
    the event loop. *)
Lemma writeHtmlGzipped_call (sourceFile resultFile : string) (w : world) :
  writeHtmlGzipped sourceFile resultFile w
  = (Ret (new_inliner sourceFile (onInlined sourceFile resultFile)),
     {| files := files w; trace := trace w ++ [Info ("Reading " +:+ sourceFile)] |}).
Proof. reflexivity. Qed.

(** The inliner and its callback, by what the inliner and the compressor
    answer. *)
Lemma new_inliner_run (sourceFile resultFile : string) (w : world) :
  new_inliner sourceFile (onInlined sourceFile resultFile) w
  = match inliner (files w) sourceFile with
    | (_, None) => (Throw (Error length_of_undefined), w)
    | (Some error, Some html) =>
        (Throw error,
         {| files := files w; trace := trace w ++ [inlined_line html; Warn [message error]] |})
    | (None, Some html) =>
        match zlib_gzip (adoptVersionAndRepo html) with
        | inl error =>
            (Throw error,
             {| files := files w;
                trace := trace w ++ [inlined_line html; Warn [message error]] |})
        | inr result =>
            writeFileSync resultFile (html_source sourceFile (length result) (hexdump result))
              {| files := files w;
                 trace := trace w ++ [inlined_line html;
                                      Info ("Compressed " +:+ decimal (length result) +:+ " bytes");
                                      Info ("Writing " +:+ resultFile)] |}
        end
    end.
Proof.
  unfold new_inliner.
  destruct (inliner (files w) sourceFile) as [error [html |]]; [| now destruct error].
  unfold onInlined, bind, console_info, console_warn, emit, throw. cbn [files trace].
  unfold inlined_line.
  destruct error as [error |]; cbn [files trace].
  - now rewrite <- !app_assoc.
  - unfold onGzipped, bind, console_info, console_warn, emit, throw.
    destruct (zlib_gzip (adoptVersionAndRepo html)) as [error | result]; cbn [files trace];
      now rewrite <- !app_assoc.
Qed.

(** A run of [writeHtmlGzipped] to the end of its callbacks, by what the
    inliner and the compressor answer. *)
Lemma writeHtmlGzipped_run (sourceFile resultFile : string) (w : world) :
  process (writeHtmlGzipped sourceFile resultFile) w
  = let t0 := trace w ++ [Info ("Reading " +:+ sourceFile)] in
    match inliner (files w) sourceFile with
    | (_, None) =>
        (InCallback (Error length_of_undefined), {| files := files w; trace := t0 |})
    | (Some error, Some html) =>
        (InCallback error,
         {| files := files w; trace := t0 ++ [inlined_line html; Warn [message error]] |})
    | (None, Some html) =>
        match zlib_gzip (adoptVersionAndRepo html) with
        | inl error =>
            (InCallback error,
             {| files := files w; trace := t0 ++ [inlined_line html; Warn [message error]] |})
        | inr result =>
            called_back
              (writeFileSync resultFile (html_source sourceFile (length result) (hexdump result))
                 {| files := files w;
                    trace := t0 ++ [inlined_line html;
                                    Info ("Compressed " +:+ decimal (length result) +:+ " bytes");
                                    Info ("Writing " +:+ resultFile)] |})
        end
    end.
Proof.
  unfold process. rewrite writeHtmlGzipped_call, new_inliner_run. cbn [files trace]. cbv zeta.
  destruct (inliner (files w) sourceFile) as [[error |] [html |]]; try reflexivity.
  now destruct (zlib_gzip (adoptVersionAndRepo html)).
Qed.


(** C3: when the inliner hands over the page [html] and the compressor
    answers the bytes [result] for its render-context substitution, the
    run goes through and the output file holds the text below, with the
    length of [result] and the hexdump of [result] in it.  The array read
    back from the bytes of that file, between its braces, is [result],
    whole; so with a decompressor that undoes the compressor, the array
    of the file decompresses to the substituted page. *)
Theorem gzip_round_trip (gunzip : list byte -> option string)
    (sourceFile resultFile html : string) (result : list byte) (w : world) :
  (forall text data, zlib_gzip text = inr data -> gunzip data = Some text) ->
  inliner (files w) sourceFile = (None, Some html) ->
  zlib_gzip (adoptVersionAndRepo html) = inr result ->
  writable (files w) resultFile = true ->
  let text :=
    "/*" +:+ nl
    +:+ " * Binary array for the Web UI." +:+ nl
    +:+ " * gzip is used for smaller size and improved speeds." +:+ nl
    +:+ " * " +:+ nl
    +:+ " * Please see https://github.com/Aircoookie/WLED/wiki/Add-own-functionality#web-ui" +:+ nl
    +:+ " * to find out how to easily modify the web UI source!" +:+ nl
    +:+ " */" +:+ nl
    +:+ " " +:+ nl
    +:+ "// Autogenerated from " +:+ sourceFile +:+ ", do not edit!!" +:+ nl
    +:+ "const uint16_t PAGE_index_L = " +:+ decimal (length result) +:+ ";" +:+ nl
    +:+ "const uint8_t PAGE_index[] PROGMEM = {" +:+ nl
    +:+ hexdump result +:+ nl
    +:+ "};" +:+ nl in
  exists w' data,
    process (writeHtmlGzipped sourceFile resultFile) w = (Finished, w')
    /\ files w' !! resultFile = Some (File data)
    /\ data = utf8 text
    /\ last (trace w') = Some (Written resultFile text)
    /\ array_of_file data = Some result
    /\ match array_of_file data with
       | Some array => gunzip array
       | None => None
       end = Some (adoptVersionAndRepo html).
Proof.
  intros Hlossless Hin Hzip Hw text.
  assert (Hread : array_of_file (utf8 text) = Some result).
  { subst text. set (tail := nl +:+ hexdump result +:+ nl +:+ "};" +:+ nl).
    change ("const uint8_t PAGE_index[] PROGMEM = {" +:+ tail)
      with ("const uint8_t PAGE_index[] PROGMEM = " +:+ "{" +:+ tail).
    rewrite <- !append_assoc. rewrite (append_assoc _ "{" tail).
    apply array_of_file_tail. }
  rewrite writeHtmlGzipped_run. cbv zeta.
  rewrite Hin, Hzip, writeFileSync_ok by exact Hw.
  change (html_source sourceFile (length result) (hexdump result)) with text.
  eexists _, (utf8 text). split; [reflexivity |]. cbn [files trace]. repeat apply conj.
  - apply lookup_insert_eq.
  - reflexivity.
  - apply last_snoc.
  - exact Hread.
  - rewrite Hread. now apply Hlossless.
Qed.

End IndexPage.

(** ** The version placeholder *)

Section VersionToken.

Import Js Cdata Obs.

Lemma compat_heads (a b : ascii) (x y : string) :
  compat (String a x) (String b y) = true -> a = b.
Proof.
  unfold compat. intros [Hp | Hp]%orb_true_iff; apply prefix_cons in Hp as [E _]; congruence.
Qed.

Lemma tails1_head (s t : string) :
  In t (tails1 s) -> exists c t', t = String c t' /\ In c (list_ascii_of_string s).
Proof.
  induction s as [|a s IH]; [intros [] |]. cbn [tails1 list_ascii_of_string].
  intros [<- | Hin].
  - exists a, s. split; [reflexivity | now left].
  - destruct (IH Hin) as (c & t' & -> & Hc). exists c, t'. split; [reflexivity | now right].
Qed.

Lemma shares_no_char_spec (token v : string) (c : ascii) :
  shares_no_char token v = true ->
  In c (list_ascii_of_string v) -> In c (list_ascii_of_string token) -> False.
Proof.
  unfold shares_no_char. rewrite forallb_forall. intros Hall Hv Ht.
  specialize (Hall c Hv). apply negb_true_iff in Hall.
  assert (existsb (Ascii.eqb c) (list_ascii_of_string token) = true); [| congruence].
  apply existsb_exists. exists c. split; [exact Ht | apply Ascii.eqb_refl].
Qed.

(** A non-empty text without any character of the token cannot overlap
    with the token. *)
Lemma disjoint_overlap_free (token v : string) :
  token <> "" -> v <> "" -> shares_no_char token v = true -> overlap_free token v = true.
Proof.
  intros Htoken Hv Hdisj. unfold overlap_free.
  destruct token as [|a token]; [congruence |]. destruct v as [|b v]; [congruence |].
  apply andb_true_iff. split; apply forallb_forall; intros t Ht; apply negb_true_iff;
    destruct (compat _ _) eqn:Hc; try reflexivity; exfalso.
  - cbn [drop] in Ht. apply tails1_head in Ht as (c & t' & -> & Hin).
    apply compat_heads in Hc as ->.
    apply (shares_no_char_spec _ _ b Hdisj); [now left | now right].
  - apply tails1_head in Ht as (c & t' & -> & Hin).
    apply compat_heads in Hc as <-.
    apply (shares_no_char_spec _ _ a Hdisj); [exact Hin | now left].
Qed.

Context `{Env}.

Lemma version_token_nonempty : version_token <> "".
Proof. discriminate. Qed.

(** C8, as amended: for every document and every non-empty version [v] of
    [package.json], the document, after the substitution of the
    repository URLs, is cut at the occurrences of the token, taken from
    left to right without overlap, and the result is these pieces with
    [v] between them, so that each of these occurrences is replaced; no
    piece holds the token.  When [v] cannot overlap with the token, as a
    version that shares no character with it, the result holds no
    occurrence of the token at all. *)
Theorem version_token_is_replaced (html v : string) :
  version packageJson = Some v ->
  v <> "" ->
  exists pieces,
    pieces = split version_token (adoptRepo packageJson html)
    /\ adoptRepo packageJson html = join version_token pieces
    /\ Forall (fun p => includes p version_token = false) pieces
    /\ adoptVersionAndRepo html = join v pieces
    /\ (overlap_free version_token v = true ->
        includes (adoptVersionAndRepo html) version_token = false)
    /\ (shares_no_char version_token v = true -> overlap_free version_token v = true).
Proof.
  intros Hversion Hv.
  assert (Hrun : adoptVersionAndRepo html
                 = strReplace (adoptRepo packageJson html) version_token v).
  { unfold adoptVersionAndRepo. rewrite Hversion. destruct v; [congruence | reflexivity]. }
  exists (split version_token (adoptRepo packageJson html)). repeat apply conj.
  - reflexivity.
  - symmetry. apply join_split, version_token_nonempty.
  - apply split_pieces_clean, version_token_nonempty.
  - exact Hrun.
  - intros Hfree. rewrite Hrun. apply strReplace_clean; [apply version_token_nonempty | exact Hfree].
  - apply disjoint_overlap_free; [apply version_token_nonempty | exact Hv].
Qed.

End VersionToken.

(** ** Two runs *)

Section TwoRuns.

Import Js Cdata Obs.

Context `{Env}.

Lemma filter_run (str : string) (type : option string) :
  exists r printed, forall w,
    filter str type w = (r, {| files := files w; trace := trace w ++ printed |}).
Proof.
  unfold filter. destruct type as [t |].
  - destruct (String.eqb t "css-minify").
    { eexists _, []. intros [fs tr]. cbn [files trace]. now rewrite app_nil_r. }
    destruct (String.eqb t "html-minify").
    { eexists _, []. intros [fs tr]. cbn [files trace]. now rewrite app_nil_r. }
    eexists _, [_]. intros w. reflexivity.
  - eexists _, []. intros [fs tr]. unfold ret. cbn [files trace]. now rewrite app_nil_r.
Qed.

(** [specToChunk] looks at no other file than the source of the spec. *)
Lemma specToChunk_agree (srcDir : string) (s : Spec.t) (fs1 fs2 : gmap string node) :
  fs1 !! source_path srcDir s = fs2 !! source_path srcDir s ->
  fst (specToChunk srcDir s {| files := fs1; trace := [] |})
  = fst (specToChunk srcDir s {| files := fs2; trace := [] |})
  /\ trace (snd (specToChunk srcDir s {| files := fs1; trace := [] |}))
     = trace (snd (specToChunk srcDir s {| files := fs2; trace := [] |})).
Proof.
  intros Hsame. unfold specToChunk.
  destruct (method_is s "plaintext"); [| destruct (method_is s "binary")].
  - unfold bind, readFileSync. fold (source_path srcDir s). cbn [files]. rewrite Hsame.
    destruct (fs2 !! source_path srcDir s) as [[buf | reason] |]; [| now split | now split].
    destruct (filter_run (toString_ascii buf) (Spec.filter s)) as (r & printed & Hrun).
    rewrite !Hrun. now destruct r.
  - unfold bind, readFileSync. fold (source_path srcDir s). cbn [files]. rewrite Hsame.
    destruct (fs2 !! source_path srcDir s) as [[buf | reason] |]; now split.
  - now split.
Qed.

Lemma batch_agree (srcDir : string) (specs : list Spec.t) (fs1 fs2 : gmap string node) :
  (forall s, In s specs -> fs1 !! source_path srcDir s = fs2 !! source_path srcDir s) ->
  chunks_text fs1 srcDir specs = chunks_text fs2 srcDir specs
  /\ concat (map (chunk_events fs1 srcDir) specs) = concat (map (chunk_events fs2 srcDir) specs).
Proof.
  intros Hsame. unfold chunks_text.
  rewrite (map_ext_in (contribution fs1 srcDir) (contribution fs2 srcDir)),
          (map_ext_in (chunk_events fs1 srcDir) (chunk_events fs2 srcDir)); [now split | |].
  - intros s Hs. unfold chunk_events.
    destruct (specToChunk_agree srcDir s fs1 fs2 (Hsame s Hs)) as [-> ->]. reflexivity.
  - intros s Hs. unfold contribution.
    destruct (specToChunk_agree srcDir s fs1 fs2 (Hsame s Hs)) as [-> _]. reflexivity.
Qed.

Lemma writable_insert (fs : gmap string node) (path : string) (data : list byte) :
  writable (<[path := File data]> fs) path = true.
Proof. unfold writable. now rewrite lookup_insert_eq. Qed.

(** C9: the output of the packer is a function of the source files and of
    the environment (the project metadata and the loaded modules, each a
    function of its input).  Two runs of [writeChunks] on file systems
    that agree on the source files of the specs end alike, print alike
    and leave the same output file; so do two runs of [writeHtmlGzipped],
    each to the end of its callbacks, for which the inliner answers
    alike, the output file being written when no callback throws.  In
    particular a second run on the files left by a first one ends as the
    first and leaves the files as they are, when no source file is the
    output file. *)
Theorem runs_are_reproducible :
  (forall srcDir specs resultFile w1 w2,
      (forall s, In s specs ->
                 files w1 !! source_path srcDir s = files w2 !! source_path srcDir s) ->
      trace w1 = trace w2 ->
      writable (files w1) resultFile = true ->
      writable (files w2) resultFile = true ->
      fst (writeChunks srcDir specs resultFile w1) = fst (writeChunks srcDir specs resultFile w2)
      /\ trace (snd (writeChunks srcDir specs resultFile w1))
         = trace (snd (writeChunks srcDir specs resultFile w2))
      /\ files (snd (writeChunks srcDir specs resultFile w1)) !! resultFile
         = files (snd (writeChunks srcDir specs resultFile w2)) !! resultFile)
  /\ (forall sourceFile resultFile w1 w2,
         inliner (files w1) sourceFile = inliner (files w2) sourceFile ->
         trace w1 = trace w2 ->
         writable (files w1) resultFile = true ->
         writable (files w2) resultFile = true ->
         fst (process (writeHtmlGzipped sourceFile resultFile) w1)
         = fst (process (writeHtmlGzipped sourceFile resultFile) w2)
         /\ trace (snd (process (writeHtmlGzipped sourceFile resultFile) w1))
            = trace (snd (process (writeHtmlGzipped sourceFile resultFile) w2))
         /\ (fst (process (writeHtmlGzipped sourceFile resultFile) w1) = Finished ->
             files (snd (process (writeHtmlGzipped sourceFile resultFile) w1)) !! resultFile
             = files (snd (process (writeHtmlGzipped sourceFile resultFile) w2)) !! resultFile))
  /\ (forall srcDir specs resultFile w,
         (forall s, In s specs -> source_path srcDir s <> resultFile) ->
         writable (files w) resultFile = true ->
         writeChunks srcDir specs resultFile
           {| files := files (snd (writeChunks srcDir specs resultFile w)); trace := trace w |}
         = writeChunks srcDir specs resultFile w)
  /\ (forall sourceFile resultFile w,
         inliner (files (snd (process (writeHtmlGzipped sourceFile resultFile) w))) sourceFile
         = inliner (files w) sourceFile ->
         writable (files w) resultFile = true ->
         process (writeHtmlGzipped sourceFile resultFile)
           {| files := files (snd (process (writeHtmlGzipped sourceFile resultFile) w));
              trace := trace w |}
         = process (writeHtmlGzipped sourceFile resultFile) w).
Proof.
  repeat apply conj.
  - intros srcDir specs resultFile w1 w2 Hsame Htrace Hw1 Hw2.
    rewrite (writeChunks_ok srcDir specs resultFile w1 Hw1),
            (writeChunks_ok srcDir specs resultFile w2 Hw2).
    destruct (batch_agree srcDir specs (files w1) (files w2) Hsame) as [-> ->].
    cbn [fst snd files trace]. rewrite Htrace, !lookup_insert_eq. now repeat apply conj.
  - intros sourceFile resultFile w1 w2 Hin Htrace Hw1 Hw2.
    rewrite !writeHtmlGzipped_run. cbv zeta. rewrite Hin, Htrace.
    destruct (inliner (files w2) sourceFile) as [[error |] [html |]]; cbn [fst snd files trace];
      try (repeat apply conj; [reflexivity | reflexivity | discriminate]).
    destruct (zlib_gzip (adoptVersionAndRepo html)) as [error | result];
      cbn [fst snd files trace];
      try (repeat apply conj; [reflexivity | reflexivity | discriminate]).
    rewrite !writeFileSync_ok by assumption.
    cbn [called_back fst snd files trace]. rewrite !lookup_insert_eq. now repeat apply conj.
  - intros srcDir specs resultFile w Hne Hw.
    rewrite (writeChunks_ok srcDir specs resultFile w Hw). cbn [snd files].
    rewrite writeChunks_ok by apply writable_insert. cbn [files trace].
    destruct (batch_agree srcDir specs
                (<[resultFile := File (utf8 (chunks_text (files w) srcDir specs))]> (files w))
                (files w)) as [-> ->].
    { intros s Hs. apply lookup_insert_ne. intros E. now apply (Hne s Hs). }
    now rewrite insert_insert_eq.
  - intros sourceFile resultFile w. rewrite !writeHtmlGzipped_run. cbv zeta.
    destruct w as [fs t]. cbn [files trace].
    destruct (inliner fs sourceFile) as [[error |] [html |]] eqn:Hin; cbn [snd files trace];
      try (intros -> _; reflexivity).
    destruct (zlib_gzip (adoptVersionAndRepo html)) as [error | result] eqn:Hzip;
      cbn [snd files trace].
    + intros -> _. now rewrite Hzip.
    + intros Hagain Hw. rewrite writeFileSync_ok in Hagain |- * by exact Hw.
      cbn [called_back snd files trace] in Hagain |- *. rewrite Hagain, Hzip.
      rewrite writeFileSync_ok by apply writable_insert.
      cbn [called_back files trace]. now rewrite insert_insert_eq.
Qed.

End TwoRuns.

(** ** Runs on the small configuration *)

Section Runs.

Import Js Cdata Obs.

Example split_examples :
  split "##" "a##b####c" = ["a"; "b"; ""; "c"]
  /\ split "ab" "" = [""]
  /\ split "aa" "aaa" = [""; "a"]
  /\ toString16 255 = "ff" /\ toString16 0 = "0" /\ toString16 4096 = "1000"
  /\ decimal 0 = "0" /\ decimal 1204 = "1204"
  /\ strip_suffix ".git" "git+https://x/y.git" = "git+https://x/y"
  /\ strip_prefix "git+" "git+https://x/y.git" = "https://x/y.git"
  /\ toString_ascii [xe9; x41] = "iA"
  /\ utf8 (String (ascii_of_byte xe9) "A") = [xc3; xa9; x41].
Proof. repeat split; reflexivity. Qed.

Example hexdump_examples :
  hexdump [x00; x00; x01] = "  0x00, 0x00, 0x01"
  /\ String.length (hexdump (repeat xff 17)) = 104
  /\ unhexdump "  0x0a, 0xFF,
  0x10" = Some [x0a; xff; x10].
Proof. repeat split; reflexivity. Qed.

(** The favicon of three bytes gets the length constant 18. *)
Lemma favicon_length_is_18 :
  method_is Demo.favicon "binary" = true
  /\ Spec.mangle Demo.favicon = None
  /\ files Demo.start !! source_path "wled00/data" Demo.favicon = Some (File [x00; x00; x01])
  /\ exists emitted,
       emitted = String.length (hexdump [x00; x00; x01])
       /\ emitted = 18
       /\ decimal emitted <> decimal (length [x00; x00; x01]).
Proof.
  do 3 (split; [reflexivity |]).
  destruct (binary_length_counts_characters (H := Demo.env) "wled00/data" Demo.favicon
              Demo.start [x00; x00; x01])
    as (emitted & _ & Hlen & _ & _ & Hne); try reflexivity; [discriminate |].
  exists emitted. repeat apply conj; [exact Hlen | now rewrite Hlen | exact Hne].
Defined.

Example favicon_chunk :
  fst (specToChunk (H := Demo.env) "wled00/data" Demo.favicon Demo.start)
  = Ret (Some (nl +:+ "// Autogenerated from wled00/data/favicon.ico, do not edit!!" +:+ nl
               +:+ "const uint16_t favicon_length = 18;" +:+ nl
               +:+ "const uint8_t favicon[] PROGMEM = {" +:+ nl
               +:+ "  0x00, 0x00, 0x01" +:+ nl
               +:+ "};" +:+ nl +:+ nl)).
Proof. reflexivity. Qed.

(** Against C2 as stated: a source file with the byte [e9] is rendered
    with the character [i] in its place. *)
Lemma plaintext_high_bit_is_lost :
  method_is Demo.raw_page "plaintext" = true
  /\ Spec.filter Demo.raw_page = None
  /\ Spec.mangle Demo.raw_page = None
  /\ files Demo.start !! source_path "wled00/data" Demo.raw_page
     = Some (File [x63; x61; x66; xe9])
  /\ fst (specToChunk (H := Demo.env) "wled00/data" Demo.raw_page Demo.start)
     = Ret (Some (plaintext_chunk "wled00/data" Demo.raw_page "cafi"))
  /\ adoptVersionAndRepo (H := Demo.env) (text_of_bytes [x63; x61; x66; xe9]) <> "cafi"
  /\ plaintext_chunk "wled00/data" Demo.raw_page "cafi"
     <> plaintext_chunk "wled00/data" Demo.raw_page
          (adoptVersionAndRepo (H := Demo.env) (text_of_bytes [x63; x61; x66; xe9])).
Proof.
  repeat apply conj; try reflexivity.
  - intros E. vm_compute in E. discriminate E.
  - intros E. vm_compute in E. discriminate E.
Qed.

Lemma plain_page_content :
  method_is Demo.plain_page "plaintext" = true
  /\ files Demo.start !! source_path "wled00/data" Demo.plain_page
     = Some (File (list_byte_of_string "WLED ##VERSION##"))
  /\ forallb seven_bit (list_byte_of_string "WLED ##VERSION##") = true
  /\ fst (specToChunk (H := Demo.env) "wled00/data" Demo.plain_page Demo.start)
     = Ret (Some (nl +:+ "// Autogenerated from wled00/data/plain.htm, do not edit!!" +:+ nl
                  +:+ "const char PAGE_plain[] PROGMEM = R" +:+ dquote
                  +:+ "=====(" +:+ "WLED 1.2.3" +:+ ")=====" +:+ dquote +:+ ";" +:+ nl +:+ nl))
  /\ toString_ascii (list_byte_of_string "WLED ##VERSION##") = "WLED ##VERSION##".
Proof.
  do 3 (split; [reflexivity |]).
  destruct (plaintext_unfiltered_content (H := Demo.env) "wled00/data" Demo.plain_page
              Demo.start (list_byte_of_string "WLED ##VERSION##")) as [Hrun Hbytes];
    try reflexivity.
  split; [now rewrite Hrun |].
  now rewrite (proj1 (Hbytes eq_refl)).
Defined.

(** Against C8 as stated: with the empty version the token stays. *)
Lemma empty_version_keeps_token :
  version (packageJson (Env := Demo.env_with (Some ""))) = Some ""
  /\ adoptVersionAndRepo (H := Demo.env_with (Some "")) "WLED ##VERSION##" = "WLED ##VERSION##"
  /\ includes (adoptVersionAndRepo (H := Demo.env_with (Some "")) "WLED ##VERSION##")
              version_token = true
  /\ adoptVersionAndRepo (H := Demo.env_with (Some "")) "WLED ##VERSION##"
     <> strReplace "WLED ##VERSION##" version_token "".
Proof.
  repeat apply conj; try reflexivity.
  intros E. vm_compute in E. discriminate E.
Qed.

(** The replacement can itself form the token with the text around it. *)
Example replacement_can_form_token :
  adoptVersionAndRepo (H := Demo.env_with (Some "VERSION")) "####VERSION####" = "##VERSION##"
  /\ overlap_free version_token "VERSION" = false
  /\ overlap_free version_token "0.14.0-RC1" = true.
Proof. repeat split; reflexivity. Qed.

Lemma version_1_2_3_is_replaced :
  version (packageJson (Env := Demo.env)) = Some "1.2.3"
  /\ shares_no_char version_token "1.2.3" = true
  /\ adoptVersionAndRepo (H := Demo.env) "WLED ##VERSION## (##VERSION##)" = "WLED 1.2.3 (1.2.3)"
  /\ includes (adoptVersionAndRepo (H := Demo.env) "WLED ##VERSION## (##VERSION##)")
              version_token = false.
Proof.
  do 3 (split; [reflexivity |]).
  destruct (version_token_is_replaced (H := Demo.env) "WLED ##VERSION## (##VERSION##)" "1.2.3")
    as (pieces & _ & _ & _ & _ & Hclean & Hfree); [reflexivity | discriminate |].
  apply Hclean, Hfree. reflexivity.
Defined.

Lemma unstore_store (text : string) (data : list byte) :
  Demo.store text = inr data -> Demo.unstore data = Some text.
Proof. intros [= <-]. unfold Demo.unstore. now rewrite string_of_list_byte_of_string. Qed.

Lemma index_page_round_trip :
  inliner (Env := Demo.env) (files Demo.start) "wled00/data/index.htm"
  = (None, Some "<p>WLED ##VERSION##</p>")
  /\ zlib_gzip (Env := Demo.env) "<p>WLED 1.2.3</p>"
     = inr (list_byte_of_string "<p>WLED 1.2.3</p>")
  /\ writable (files Demo.start) "wled00/html_ui.h" = true
  /\ exists w' data,
       process (writeHtmlGzipped (H := Demo.env) "wled00/data/index.htm" "wled00/html_ui.h")
         Demo.start
       = (Finished, w')
       /\ files w' !! "wled00/html_ui.h" = Some (File data)
       /\ data
          = utf8 ("/*" +:+ nl
                  +:+ " * Binary array for the Web UI." +:+ nl
                  +:+ " * gzip is used for smaller size and improved speeds." +:+ nl
                  +:+ " * " +:+ nl
                  +:+ " * Please see https://github.com/Aircoookie/WLED/wiki/Add-own-functionality#web-ui"
                  +:+ nl
                  +:+ " * to find out how to easily modify the web UI source!" +:+ nl
                  +:+ " */" +:+ nl
                  +:+ " " +:+ nl
                  +:+ "// Autogenerated from wled00/data/index.htm, do not edit!!" +:+ nl
                  +:+ "const uint16_t PAGE_index_L = 17;" +:+ nl
                  +:+ "const uint8_t PAGE_index[] PROGMEM = {" +:+ nl
                  +:+ "  0x3c, 0x70, 0x3e, 0x57, 0x4c, 0x45, 0x44, 0x20, "
                  +:+ "0x31, 0x2e, 0x32, 0x2e, 0x33, 0x3c, 0x2f, 0x70," +:+ nl
                  +:+ "  0x3e" +:+ nl
                  +:+ "};" +:+ nl)
       /\ array_of_file data = Some (list_byte_of_string "<p>WLED 1.2.3</p>")
       /\ match array_of_file data with
          | Some array => Demo.unstore array
          | None => None
          end = Some "<p>WLED 1.2.3</p>".
Proof.
  do 3 (split; [reflexivity |]).
  destruct (gzip_round_trip (H := Demo.env) Demo.unstore
              "wled00/data/index.htm" "wled00/html_ui.h" "<p>WLED ##VERSION##</p>"
              (list_byte_of_string "<p>WLED 1.2.3</p>") Demo.start)
    as (w' & data & Hrun & Hfile & Hdata & _ & Hread & Hunzip);
    try reflexivity; [exact unstore_store |].
  exists w', data.
  repeat apply conj; [exact Hrun | exact Hfile | exact Hdata | exact Hread | exact Hunzip].
Defined.


Lemma missing_welcome_page_is_skipped :
  method_is Demo.PAGE_welcome "plaintext" || method_is Demo.PAGE_welcome "binary" = true
  /\ read_error (files Demo.start) (source_path "wled00/data" Demo.PAGE_welcome)
     = Some (enoent "wled00/data/welcome.htm")
  /\ writable (files Demo.start) "wled00/html_other.h" = true
  /\ clipped (enoent "wled00/data/welcome.htm")
     = "ENOENT: no such file or directory, open 'wled00/data/welcome"
  /\ exists w',
       writeChunks (H := Demo.env) "wled00/data"
         ([Demo.PAGE_update] ++ Demo.PAGE_welcome :: [Demo.favicon]) "wled00/html_other.h"
         Demo.start
       = (Ret tt, w')
       /\ In (Warn ["Failed PAGE_welcome from wled00/data/welcome.htm";
                    "ENOENT: no such file or directory, open 'wled00/data/welcome"])
             (trace w')
       /\ files w'
          = files (snd (writeChunks (H := Demo.env) "wled00/data"
                          ([Demo.PAGE_update] ++ [Demo.favicon]) "wled00/html_other.h"
                          Demo.start)).
Proof.
  do 4 (split; [reflexivity |]).
  destruct (unreadable_source_is_skipped (H := Demo.env) "wled00/data"
              [Demo.PAGE_update] [Demo.favicon] Demo.PAGE_welcome "wled00/html_other.h"
              (enoent "wled00/data/welcome.htm") Demo.start)
    as (w' & Hrun & _ & Hwarn & _ & _ & _ & Hsame); try reflexivity.
  exists w'. repeat apply conj; [exact Hrun | exact Hwarn | exact Hsame].
Defined.

Lemma odd_filter_passes_through :
  method_is Demo.odd_filter "plaintext" = true
  /\ Spec.filter Demo.odd_filter = Some "js-minify"
  /\ files Demo.start !! source_path "wled00/data" Demo.odd_filter
     = Some (File (list_byte_of_string "<h2>Update ##VERSION##</h2>"))
  /\ specToChunk (H := Demo.env) "wled00/data" Demo.odd_filter Demo.start
     = (Ret (Some (plaintext_chunk "wled00/data" Demo.odd_filter "<h2>Update 1.2.3</h2>")),
        {| files := files Demo.start; trace := [Warn ["Unknown filter: js-minify"]] |})
  /\ fst (specToChunk (H := Demo.env) "wled00/data" Demo.odd_filter Demo.start)
     = fst (specToChunk (H := Demo.env) "wled00/data" (without_filter Demo.odd_filter)
              Demo.start).
Proof.
  do 3 (split; [reflexivity |]).
  destruct (unknown_filter_passes_through (H := Demo.env) "wled00/data" Demo.odd_filter
              Demo.start (list_byte_of_string "<h2>Update ##VERSION##</h2>") "js-minify")
    as (_ & Hrun & Hsame & _); try reflexivity; try discriminate.
  split; [exact Hrun | exact Hsame].
Defined.

Lemma other_pages_in_order :
  writable (files Demo.start) "wled00/html_other.h" = true
  /\ files (snd (writeChunks (H := Demo.env) "wled00/data"
                   [Demo.PAGE_update; Demo.PAGE_welcome; Demo.odd_method; Demo.favicon]
                   "wled00/html_other.h" Demo.start))
       !! "wled00/html_other.h"
     = Some (File (utf8 ("/*" +:+ nl
                         +:+ " * More web UI HTML source arrays." +:+ nl
                         +:+ " * This file is auto generated, please don't make any changes manually."
                         +:+ nl
                         +:+ " * Instead, see https://github.com/Aircoookie/WLED/wiki/Add-own-functionality#web-ui"
                         +:+ nl
                         +:+ " * to find out how to easily modify the web UI source!" +:+ nl
                         +:+ " */ " +:+ nl
                         +:+ nl
                         +:+ "// Autogenerated from wled00/data/update.htm, do not edit!!" +:+ nl
                         +:+ "const char PAGE_update[] PROGMEM = R" +:+ dquote
                         +:+ "=====(<h2>Update 1.2.3</h2>)=====" +:+ dquote +:+ ";" +:+ nl
                         +:+ nl
                         +:+ "undefined"
                         +:+ nl
                         +:+ "// Autogenerated from wled00/data/favicon.ico, do not edit!!" +:+ nl
                         +:+ "const uint16_t favicon_length = 18;" +:+ nl
                         +:+ "const uint8_t favicon[] PROGMEM = {" +:+ nl
                         +:+ "  0x00, 0x00, 0x01" +:+ nl
                         +:+ "};" +:+ nl +:+ nl))).
Proof.
  split; [reflexivity |].
  destruct (writeChunks_header_then_chunks (H := Demo.env) "wled00/data"
              [Demo.PAGE_update; Demo.PAGE_welcome; Demo.odd_method; Demo.favicon]
              "wled00/html_other.h" Demo.start) as (_ & _ & _ & Hrun).
  rewrite (Hrun eq_refl). reflexivity.
Defined.

Lemma second_run_changes_nothing :
  writable (files Demo.start) "wled00/html_other.h" = true
  /\ writeChunks (H := Demo.env) "wled00/data" [Demo.PAGE_update; Demo.favicon]
       "wled00/html_other.h"
       {| files := files (snd (writeChunks (H := Demo.env) "wled00/data"
                                 [Demo.PAGE_update; Demo.favicon] "wled00/html_other.h"
                                 Demo.start));
          trace := trace Demo.start |}
     = writeChunks (H := Demo.env) "wled00/data" [Demo.PAGE_update; Demo.favicon]
         "wled00/html_other.h" Demo.start.
Proof.
  split; [reflexivity |].
  apply (proj1 (proj2 (proj2 (runs_are_reproducible (H := Demo.env))))); [| reflexivity].
  intros s [<- | [<- | []]]; discriminate.
Defined.

Lemma base64_method_adds_undefined :
  method_is Demo.odd_method "plaintext" = false
  /\ method_is Demo.odd_method "binary" = false
  /\ specToChunk (H := Demo.env) "wled00/data" Demo.odd_method Demo.start
     = (Ret None, {| files := files Demo.start; trace := [Warn ["Unknown method: base64"]] |})
  /\ contribution (H := Demo.env) (files Demo.start) "wled00/data" Demo.odd_method
     = "undefined".
Proof.
  do 2 (split; [reflexivity |]).
  destruct (unknown_method_adds_undefined (H := Demo.env) "wled00/data" Demo.odd_method)
    as (Hrun & Hadds & _ & _); try reflexivity.
  split; [apply Hrun | apply Hadds].
Defined.

End Runs.

(** * Further properties of the script *)

(** ** More on [hexdump] *)

Section HexdumpMore.

Import Js Cdata Obs.

(** X2: Every byte is printed as [0x] and its two hexadecimal digits, in lower
    case, the high one first, with a [0] for a high digit of zero. *)
Theorem hexbyte_two_digits (value : byte) :
  hexbyte value
  = "0x" +:+ String (hex_digit (Byte.to_N value / 16))
               (String (hex_digit (Byte.to_N value mod 16)) "").
Proof. destruct value; reflexivity. Qed.

Lemma hexdump_from_lines (fuel : nat) :
  forall (i : nat) (buffer : list byte),
    length buffer - i <= fuel ->
    length (hexdump_from fuel i buffer) = (length buffer - i + 15) / 16
    /\ forall k, k < length (hexdump_from fuel i buffer) ->
         nth k (hexdump_from fuel i buffer) ""
         = hexline (slice (i + 16 * k) (i + 16 * k + 16) buffer).
Proof.
  induction fuel as [|fuel IH]; intros i buffer Hfuel.
  - cbn [hexdump_from length]. split; [| intros k Hk; lia].
    replace (length buffer - i) with 0 by lia. reflexivity.
  - destruct (Nat.le_gt_cases (length buffer) i) as [Hdone | Hi].
    + rewrite hexdump_from_done by exact Hdone. cbn [length]. split; [| intros k Hk; lia].
      replace (length buffer - i) with 0 by lia. reflexivity.
    + rewrite hexdump_from_step by exact Hi.
      destruct (IH (i + 16) buffer ltac:(lia)) as [Hlen Hnth]. split.
      * cbn [length]. rewrite Hlen.
        destruct (Nat.le_gt_cases (length buffer) (i + 16)) as [Hlast | Hmore].
        -- replace (length buffer - (i + 16)) with 0 by lia.
           change ((0 + 15) / 16) with 0.
           apply Nat.div_unique with (r := length buffer - i - 1); lia.
        -- replace (length buffer - i + 15)
             with (length buffer - (i + 16) + 15 + 1 * 16) by lia.
           rewrite Nat.div_add by lia. lia.
      * intros [|k] Hk; cbn [nth].
        -- now rewrite Nat.mul_0_r, !Nat.add_0_r.
        -- cbn [length] in Hk. rewrite Hnth by lia.
           now replace (i + 16 + 16 * k) with (i + 16 * S k) by lia.
Qed.

(** X3: The text of [hexdump] has one line for each block of 16 bytes of the
    buffer, in order: line [k] prints the bytes from [16k] up to [16k+16],
    or up to the end of the buffer, and no line is empty. *)
Theorem hexdump_lines_of_sixteen (buffer : list byte) :
  let lines := hexdump_from (length buffer) 0 buffer in
  hexdump buffer = join ("," +:+ nl) lines
  /\ length lines = (length buffer + 15) / 16
  /\ forall k, k < length lines ->
       nth k lines "" = hexline (slice (16 * k) (16 * k + 16) buffer)
       /\ length (slice (16 * k) (16 * k + 16) buffer) = Nat.min 16 (length buffer - 16 * k)
       /\ 16 * k < length buffer.
Proof.
  cbv zeta. destruct (hexdump_from_lines (length buffer) 0 buffer ltac:(lia)) as [Hlen Hnth].
  rewrite Nat.sub_0_r in Hlen. repeat apply conj; [reflexivity | exact Hlen |].
  intros k Hk. repeat apply conj.
  - now rewrite Hnth by exact Hk.
  - apply slice_length.
  - rewrite Hlen in Hk.
    assert (16 * ((length buffer + 15) / 16) <= length buffer + 15)
      by (apply Nat.Div0.mul_div_le).
    lia.
Qed.

(** X1: What [hexdump] prints reads back as the buffer it was given, so two
    buffers with the same hexdump are the same. *)
Theorem hexdump_reads_back (buffer other : list byte) :
  unhexdump (hexdump buffer) = Some buffer
  /\ (hexdump buffer = hexdump other -> buffer = other).
Proof.
  split; [apply unhexdump_hexdump |].
  intros E. pose proof (unhexdump_hexdump buffer) as H1.
  rewrite E, unhexdump_hexdump in H1. congruence.
Qed.

Lemma hexdump_reads_back_favicon :
  hexdump [x00; x00; x01] = hexdump [x00; x00; x01]
  /\ unhexdump (hexdump [x00; x00; x01]) = Some [x00; x00; x01].
Proof.
  split; [reflexivity |].
  apply (proj1 (hexdump_reads_back [x00; x00; x01] [x00; x00; x01])).
Defined.

Context `{Env}.

(** X4: The binary chunk of an empty source file: the length constant is 0,
    the only case in which it is the number of bytes, and the array has
    an empty line for its elements. *)
Theorem binary_chunk_of_empty_file (srcDir : string) (s : Spec.t) (w : world) :
  method_is s "binary" = true ->
  Spec.mangle s = None ->
  files w !! source_path srcDir s = Some (File []) ->
  specToChunk srcDir s w
  = (Ret (Some
       (nl +:+ "// Autogenerated from " +:+ srcDir +:+ "/" +:+ Spec.file s
           +:+ ", do not edit!!" +:+ nl
        +:+ "const uint16_t " +:+ Spec.name s +:+ "_length = 0;" +:+ nl
        +:+ "const uint8_t " +:+ Spec.name s +:+ "[] PROGMEM = {" +:+ nl
        +:+ nl
        +:+ "};" +:+ nl +:+ nl)), w)
  /\ forall buf, String.length (hexdump buf) = length buf <-> buf = [].
Proof.
  intros Hm Hmangle Hfile. split.
  - rewrite (specToChunk_binary srcDir s [] w Hm Hfile). unfold mangled. now rewrite Hmangle.
  - intros buf. split; [| now intros ->].
    intros E. destruct buf as [|b buf]; [reflexivity |].
    pose proof (hexdump_longer (b :: buf) ltac:(discriminate)). lia.
Qed.

End HexdumpMore.

Section HexdumpRuns.

Import Js Cdata Obs.

Lemma empty_icon_chunk :
  method_is Demo.favicon "binary" = true
  /\ fst (specToChunk (H := Demo.env) "wled00/data" Demo.favicon
            {| files := <["wled00/data/favicon.ico" := File []]> ∅; trace := [] |})
     = Ret (Some (nl +:+ "// Autogenerated from wled00/data/favicon.ico, do not edit!!"
                  +:+ nl +:+ "const uint16_t favicon_length = 0;" +:+ nl
                  +:+ "const uint8_t favicon[] PROGMEM = {" +:+ nl +:+ nl
                  +:+ "};" +:+ nl +:+ nl)).
Proof.
  split; [reflexivity |].
  destruct (binary_chunk_of_empty_file (H := Demo.env) "wled00/data" Demo.favicon
              {| files := <["wled00/data/favicon.ico" := File []]> ∅; trace := [] |})
    as [Hrun _]; [reflexivity | reflexivity | reflexivity |].
  now rewrite Hrun.
Defined.

End HexdumpRuns.

(** ** More on [strReplace] *)

Section StrReplaceMore.

Import Js Cdata Obs Replace.

Lemma join_chars (s : string) : join "" (chars s) = s.
Proof.
  induction s as [|c s IH]; [reflexivity |]. cbn [chars].
  destruct s as [|c' s]; [reflexivity |].
  rewrite join_cons by discriminate. now rewrite IH.
Qed.

(** X5: Replacing a text by itself changes nothing, whatever the text, the
    empty one included. *)
Theorem strReplace_same (str search : string) : strReplace str search search = str.
Proof.
  unfold strReplace. destruct search as [|a search]; [apply join_chars |].
  apply join_split. discriminate.
Qed.

Lemma includes_app_intro (p t r : string) : includes (p +:+ t +:+ r) t = true.
Proof.
  induction p as [|c p IH].
  - rewrite append_empty_l. apply includes_prefix, prefix_append.
  - rewrite append_cons, includes_cons, IH. apply orb_true_r.
Qed.

Lemma split_absent (sep s : string) :
  sep <> "" -> includes s sep = false -> split sep s = [s].
Proof.
  intros Hsep Hs. rewrite (split_nonempty_sep sep Hsep).
  destruct (split_scan_cases sep Hsep s) as [[_ E] | (p & r & -> & _ & _)]; [exact E |].
  now rewrite includes_app_intro in Hs.
Qed.

(** X6: A text in which [search] does not occur is returned as it is. *)
Theorem strReplace_absent (str search replacement : string) :
  search <> "" ->
  includes str search = false ->
  strReplace str search replacement = str.
Proof. intros Hsep Hs. unfold strReplace. now rewrite split_absent. Qed.

Lemma strReplace_absent_witness :
  includes "WLED 0.10" "##VERSION##" = false
  /\ strReplace "WLED 0.10" "##VERSION##" "1.2.3" = "WLED 0.10".
Proof.
  split; [reflexivity |].
  apply (strReplace_absent "WLED 0.10" "##VERSION##" "1.2.3"); [discriminate | reflexivity].
Defined.

(** X7: The length of the result: with [k] the number of cuts that [split]
    makes, [k] copies of [search] are gone and [k] copies of
    [replacement] have come. *)
Theorem strReplace_length (str search replacement : string) :
  search <> "" ->
  String.length (strReplace str search replacement)
  + (length (split search str) - 1) * String.length search
  = String.length str + (length (split search str) - 1) * String.length replacement.
Proof.
  intros Hsep. unfold strReplace.
  apply (split_ind search Hsep
           (fun s ps => String.length (join replacement ps)
                        + (length ps - 1) * String.length search
                        = String.length s + (length ps - 1) * String.length replacement)).
  - intros s _. cbn. lia.
  - intros p r ps _ Hne IH. rewrite join_cons by exact Hne.
    rewrite !length_append. cbn [length].
    destruct ps as [|q ps]; [congruence |]. cbn [length] in *. lia.
Qed.

Lemma strReplace_length_witness :
  String.length (strReplace "a##b##c" "##" "12345") + 2 * 2 = 7 + 2 * 5.
Proof. apply (strReplace_length "a##b##c" "##" "12345"). discriminate. Defined.

(** X8: A second replacement changes nothing more, when the replacement
    cannot overlap with the text searched for. *)
Theorem strReplace_twice (str search replacement : string) :
  search <> "" ->
  overlap_free search replacement = true ->
  strReplace (strReplace str search replacement) search replacement
  = strReplace str search replacement.
Proof.
  intros Hsep Hfree. apply strReplace_absent; [exact Hsep |].
  now apply strReplace_clean.
Qed.

Lemma strReplace_twice_witness :
  overlap_free "##VERSION##" "1.2.3" = true
  /\ strReplace (strReplace "v##VERSION##" "##VERSION##" "1.2.3") "##VERSION##" "1.2.3"
     = "v1.2.3".
Proof.
  split; [reflexivity |].
  rewrite (strReplace_twice "v##VERSION##" "##VERSION##" "1.2.3"); [| discriminate |];
    reflexivity.
Defined.

Lemma join_cons_head (glue : string) (c : ascii) (ps : list string) :
  ps <> [] -> join glue (cons_head c ps) = String c (join glue ps).
Proof.
  destruct ps as [|p ps]; [congruence | intros _]. cbn [cons_head].
  destruct ps as [|q ps]; [reflexivity |].
  rewrite !join_cons by discriminate. apply append_cons.
Qed.

Lemma starts_with_one_single (t s : string) :
  starts_with_one [t] s = if String.prefix t s then Some t else None.
Proof. unfold starts_with_one. cbn [find]. now destruct (String.prefix t s). Qed.

Lemma replace_scan_split (t r : string) :
  t <> "" -> forall s k, replace_scan [t] r k s = join r (split_scan t k s).
Proof.
  intros Ht. induction s as [|c s IH]; intros k; [reflexivity |].
  destruct k as [|k]; cbn [replace_scan split_scan]; [| apply IH].
  rewrite starts_with_one_single.
  destruct (String.prefix t (String c s)).
  - rewrite join_cons by now apply split_scan_nonempty.
    now rewrite append_empty_l, IH.
  - rewrite join_cons_head by now apply split_scan_nonempty.
    now rewrite IH.
Qed.

(** X9: [strReplace] is the replacement of a scan from left to right, the one
    that [replace] makes with a regular expression for [search] and the
    flag [g]: at each occurrence found, the replacement is put and the
    scan goes on behind the occurrence. *)
Theorem strReplace_is_scan (str search replacement : string) :
  search <> "" ->
  strReplace str search replacement = replace_all [search] replacement str.
Proof.
  intros Hsep. unfold strReplace, replace_all.
  now rewrite split_nonempty_sep, replace_scan_split.
Qed.

Lemma strReplace_is_scan_witness :
  strReplace "aaa%b" "aa" "x" = "xa%b"
  /\ replace_all ["aa"] "x" "aaa%b" = "xa%b".
Proof.
  split; [reflexivity |].
  rewrite <- (strReplace_is_scan "aaa%b" "aa" "x"); [reflexivity | discriminate].
Defined.

End StrReplaceMore.

(** ** More on [adoptVersionAndRepo] *)

Section AdoptMore.

Import Js Cdata Obs.

Lemma ends_with_append (p u : string) : ends_with p (u +:+ p) = true.
Proof.
  induction u as [|c u IH].
  - rewrite append_empty_l. destruct p; cbn [ends_with]; now rewrite String.eqb_refl.
  - rewrite append_cons. cbn [ends_with]. rewrite IH. now destruct (String.eqb _ _).
Qed.

Lemma substring0_append (u x : string) : String.substring 0 (String.length u) (u +:+ x) = u.
Proof.
  induction u as [|c u IH]; [now destruct x |].
  rewrite append_cons. cbn [String.length String.substring]. now rewrite IH.
Qed.

Lemma strip_suffix_append (p u : string) : strip_suffix p (u +:+ p) = u.
Proof.
  unfold strip_suffix. rewrite ends_with_append, length_append.
  replace (String.length u + String.length p - String.length p) with (String.length u) by lia.
  apply substring0_append.
Qed.

Lemma strip_prefix_append (p u : string) : strip_prefix p (p +:+ u) = u.
Proof. unfold strip_prefix. now rewrite prefix_append, drop_append. Qed.

(** X10: The URL that npm writes into [package.json], [git+] followed by the
    address and [.git], is used without the two: both upstream addresses
    are replaced by the address itself, first the one of atuline, then
    the one of Aircoookie in the result. *)
Theorem repo_url_is_normalised (pkg : package) (r : repository) (address html : string) :
  repo pkg = Some r ->
  url r = Some ("git+" +:+ address +:+ ".git") ->
  adoptRepo pkg html
  = strReplace (strReplace html "https://github.com/atuline/WLED" address)
      "https://github.com/Aircoookie/WLED" address.
Proof.
  intros Hrepo Hurl. unfold adoptRepo. rewrite Hrepo, Hurl.
  change (truthy (Some ("git+" +:+ address +:+ ".git")))
    with (Some ("git+" +:+ address +:+ ".git")).
  cbv beta iota zeta. now rewrite strip_prefix_append, strip_suffix_append.
Qed.

Lemma repo_url_is_normalised_witness :
  url {| url := Some "git+https://github.com/Ecstxsy/WLED.git" |}
  = Some ("git+" +:+ "https://github.com/Ecstxsy/WLED" +:+ ".git")
  /\ adoptRepo (Demo.pkg None) "see https://github.com/atuline/WLED/wiki"
     = "see https://github.com/Ecstxsy/WLED/wiki".
Proof.
  split; [reflexivity |].
  rewrite (repo_url_is_normalised (Demo.pkg None)
             {| url := Some "git+https://github.com/Ecstxsy/WLED.git" |}
             "https://github.com/Ecstxsy/WLED"); reflexivity.
Defined.

Context `{Env}.

(** X11: A document without the two upstream addresses and without the
    version token comes back as it is, whatever [package.json] says. *)
Theorem adopt_leaves_plain_documents (html : string) :
  includes html "https://github.com/atuline/WLED" = false ->
  includes html "https://github.com/Aircoookie/WLED" = false ->
  includes html version_token = false ->
  adoptVersionAndRepo html = html.
Proof.
  intros H1 H2 Hv.
  assert (Hrepo : adoptRepo packageJson html = html).
  { unfold adoptRepo. destruct (truthy _); [| reflexivity]. cbv zeta.
    rewrite (strReplace_absent html "https://github.com/atuline/WLED") by (discriminate || exact H1).
    now rewrite strReplace_absent by (discriminate || exact H2). }
  unfold adoptVersionAndRepo. cbv zeta. rewrite Hrepo.
  destruct (truthy _); [| reflexivity].
  apply strReplace_absent; [discriminate | exact Hv].
Qed.

End AdoptMore.

Section AdoptRuns.

Import Js Cdata Obs.

Lemma adopt_leaves_plain_documents_witness :
  includes "<h2>Update</h2>" version_token = false
  /\ adoptVersionAndRepo (H := Demo.env) "<h2>Update</h2>" = "<h2>Update</h2>".
Proof.
  split; [reflexivity |].
  apply (adopt_leaves_plain_documents (H := Demo.env) "<h2>Update</h2>"); reflexivity.
Defined.

End AdoptRuns.

(** ** More on [specToChunk] and [writeChunks] *)

Section ChunksMore.

Import Js Cdata Obs Known.

Context `{Env}.
Variable srcDir : string.


(** X13: [specToChunk] changes no file and prints at most one line, a warning
    of one text: it never prints the progress lines of [writeChunks] and
    never writes. *)
Theorem specToChunk_changes_no_file (s : Spec.t) (w : world) :
  exists printed,
    snd (specToChunk srcDir s w) = {| files := files w; trace := trace w ++ printed |}
    /\ length printed <= 1
    /\ Forall (fun e => is_plain_warning e = true) printed.
Proof.
  destruct w as [fs t]. unfold specToChunk.
  assert (Hnone : forall A (r : outcome A),
             exists printed,
               snd (r, {| files := fs; trace := t |})
               = {| files := files {| files := fs; trace := t |};
                    trace := trace {| files := fs; trace := t |} ++ printed |}
               /\ length printed <= 1
               /\ Forall (fun e => is_plain_warning e = true) printed).
  { intros A r. exists []. cbn [snd files trace]. rewrite app_nil_r.
    repeat apply conj; [reflexivity | cbn; lia | constructor]. }
  destruct (method_is s "plaintext"); [| destruct (method_is s "binary")].
  - unfold bind, readFileSync. cbn [files].
    destruct (fs !! _) as [[buf | reason] |]; [| apply Hnone | apply Hnone].
    unfold filter. destruct (Spec.filter s) as [f |].
    + destruct (String.eqb f "css-minify");
        [destruct (CleanCSS_minify _); apply Hnone |].
      destruct (String.eqb f "html-minify");
        [destruct (MinifyHTML _); apply Hnone |].
      eexists [_]. cbn [snd files trace].
      repeat apply conj; [reflexivity | cbn; lia | repeat constructor].
    + apply Hnone.
  - unfold bind, readFileSync. cbn [files].
    destruct (fs !! _) as [[buf | reason] |]; apply Hnone.
  - eexists [_]. cbn [snd files trace].
    repeat apply conj; [reflexivity | cbn; lia | repeat constructor].
Qed.

Lemma contribution_of_throw (s : Spec.t) (e : exn) (fs : gmap string node) :
  fst (specToChunk srcDir s {| files := fs; trace := [] |}) = Throw e ->
  contribution fs srcDir s = ""
  /\ In (Warn ["Failed " +:+ Spec.name s +:+ " from " +:+ srcDir +:+ "/" +:+ Spec.file s;
               clipped (message e)])
        (chunk_events fs srcDir s).
Proof.
  intros Hthrow. unfold contribution, chunk_events. rewrite Hthrow. split; [reflexivity |].
  apply in_or_app. right. apply in_or_app. right. now left.
Qed.

(** X14: When the markup minifier gives up on the page of one spec, the batch
    goes on as for a file that cannot be read: the run ends normally, the
    console has the warning with the name of the asset and the message of
    the minifier, cut to 60 characters, and the output file is the one of
    the sequence without that spec. *)
Theorem minifier_failure_is_skipped
    (pre post : list Spec.t) (s : Spec.t) (resultFile : string) (buf : list byte)
    (e : exn) (w : world) :
  method_is s "plaintext" = true ->
  Spec.filter s = Some "html-minify" ->
  files w !! source_path srcDir s = Some (File buf) ->
  MinifyHTML (adoptVersionAndRepo (toString_ascii buf)) = Throw e ->
  writable (files w) resultFile = true ->
  exists w',
    writeChunks srcDir (pre ++ s :: post) resultFile w = (Ret tt, w')
    /\ In (Warn ["Failed " +:+ Spec.name s +:+ " from " +:+ srcDir +:+ "/" +:+ Spec.file s;
                 clipped (message e)]) (trace w')
    /\ files w' = files (snd (writeChunks srcDir (pre ++ post) resultFile w)).
Proof.
  intros Hm Hfilter Hfile Hthrow Hw.
  assert (Hrun : fst (specToChunk srcDir s {| files := files w; trace := [] |}) = Throw e).
  { rewrite (specToChunk_plaintext srcDir s buf {| files := files w; trace := [] |} Hm Hfile),
      Hfilter.
    unfold bind, filter. cbn [String.eqb Ascii.eqb Bool.eqb]. cbv beta iota.
    now rewrite Hthrow. }
  destruct (contribution_of_throw s e (files w) Hrun) as [Hnone Hwarn].
  eexists. split; [apply (writeChunks_ok _ _ _ _ Hw) |].
  cbn [files trace]. split.
  - apply in_or_app. right. apply in_or_app. left.
    rewrite map_app, concat_app. apply in_or_app. right.
    cbn [map concat]. apply in_or_app. now left.
  - rewrite (writeChunks_ok _ _ _ _ Hw). cbn [snd files].
    now rewrite (chunks_text_skip _ _ _ _ _ Hnone).
Qed.

(** X15: When the output file cannot be opened, [writeChunks] has gone through
    all specs and printed its lines before it fails: it ends with the
    exception of [fs.writeFileSync], which it does not catch, and no file
    has changed. *)
Theorem writeChunks_unwritable
    (specs : list Spec.t) (resultFile reason : string) (w : world) :
  files w !! resultFile = Some (Denied reason) ->
  writeChunks srcDir specs resultFile w
  = (Throw (Error reason),
     {| files := files w;
        trace := trace w ++ concat (map (chunk_events (files w) srcDir) specs)
                 ++ [Info ("Writing "
                           +:+ decimal (String.length (chunks_text (files w) srcDir specs))
                           +:+ " characters into " +:+ resultFile)] |}).
Proof.
  intros Hdenied. rewrite writeChunks_run. unfold writeFileSync. cbn [files].
  now rewrite Hdenied.
Qed.

(** X16: [writeChunks] changes no other file than its output file: the source
    files and everything else are as before, however the run ends. *)
Theorem writeChunks_touches_only_destination
    (specs : list Spec.t) (resultFile path : string) (w : world) :
  path <> resultFile ->
  files (snd (writeChunks srcDir specs resultFile w)) !! path = files w !! path.
Proof.
  intros Hne. rewrite writeChunks_run. unfold writeFileSync. cbn [files].
  destruct (files w !! resultFile) as [[data | reason] |]; cbn [snd files];
    try reflexivity; now apply lookup_insert_ne.
Qed.

(** X17: The output for two sequences of specs put together is the output for
    the first one followed by what the specs of the second one add; for
    no spec at all it is the header alone, the six lines below. *)
Theorem writeChunks_appends (first second : list Spec.t) (resultFile : string) (w : world) :
  writable (files w) resultFile = true ->
  exists text,
    files (snd (writeChunks srcDir first resultFile w)) !! resultFile
    = Some (File (utf8 text))
    /\ files (snd (writeChunks srcDir (first ++ second) resultFile w)) !! resultFile
       = Some (File (utf8 (text +:+ concat_all (map (contribution (files w) srcDir) second))))
    /\ (first = [] ->
        text
        = "/*" +:+ nl
          +:+ " * More web UI HTML source arrays." +:+ nl
          +:+ " * This file is auto generated, please don't make any changes manually." +:+ nl
          +:+ " * Instead, see https://github.com/Aircoookie/WLED/wiki/Add-own-functionality#web-ui"
          +:+ nl
          +:+ " * to find out how to easily modify the web UI source!" +:+ nl
          +:+ " */ " +:+ nl).
Proof.
  intros Hw. exists (chunks_text (files w) srcDir first).
  rewrite !writeChunks_ok by exact Hw. cbn [snd files]. rewrite !lookup_insert_eq.
  repeat apply conj.
  - reflexivity.
  - rewrite chunks_text_app. unfold chunks_text. now rewrite append_assoc.
  - intros ->. unfold chunks_text. cbn [map concat_all fold_right].
    fold chunks_header. apply append_empty_r.
Qed.

(** X18: The message of a warning is the message of the error up to its 60th
    character: shorter messages are printed whole. *)
Theorem clipped_is_the_first_sixty (msg : string) :
  String.length (clipped msg) = Nat.min 60 (String.length msg)
  /\ String.prefix (clipped msg) msg = true
  /\ (String.length msg <= 60 -> clipped msg = msg).
Proof.
  repeat apply conj.
  - unfold clipped. destruct (Nat.ltb_spec 60 (String.length msg)).
    + rewrite substring0_length. lia.
    + lia.
  - apply clipped_prefix.
  - intros Hshort. unfold clipped.
    destruct (Nat.ltb_spec 60 (String.length msg)); [lia | reflexivity].
Qed.

End ChunksMore.

Section ChunksRuns.

Import Js Cdata Obs Known.


Lemma unclosed_paragraph_is_skipped :
  MinifyHTML (Env := Trial.strict_env)
    (adoptVersionAndRepo (H := Trial.strict_env)
       (toString_ascii (list_byte_of_string "<p>Update")))
  = Throw (Error "Parse Error: <p>")
  /\ writable Trial.disk "wled00/html_other.h" = true
  /\ exists w',
       writeChunks (H := Trial.strict_env) "wled00/data"
         ([] ++ Demo.PAGE_update :: [Demo.PAGE_welcome]) "wled00/html_other.h"
         {| files := Trial.disk; trace := [] |}
       = (Ret tt, w')
       /\ In (Warn ["Failed PAGE_update from wled00/data/update.htm"; "Parse Error: <p>"])
             (trace w')
       /\ files w' !! "wled00/html_other.h"
          = Some (File (utf8 (chunks_header
                              +:+ plaintext_chunk "wled00/data" Demo.PAGE_welcome
                                    "<h2>Welcome</h2>"))).
Proof.
  do 2 (split; [reflexivity |]).
  destruct (minifier_failure_is_skipped (H := Trial.strict_env) "wled00/data"
              [] [Demo.PAGE_welcome] Demo.PAGE_update "wled00/html_other.h"
              (list_byte_of_string "<p>Update") (Error "Parse Error: <p>")
              {| files := Trial.disk; trace := [] |})
    as (w' & Hrun & Hwarn & Hsame);
    [reflexivity | reflexivity | reflexivity | reflexivity | reflexivity |].
  exists w'. repeat apply conj; [exact Hrun | exact Hwarn |].
  rewrite Hsame. reflexivity.
Defined.

Lemma locked_output_is_an_exception :
  files {| files := Trial.locked; trace := [] |} !! "wled00/html_other.h"
  = Some (Denied "EACCES: permission denied, open 'wled00/html_other.h'")
  /\ fst (writeChunks (H := Demo.env) "wled00/data" [Demo.PAGE_update; Demo.favicon]
            "wled00/html_other.h" {| files := Trial.locked; trace := [] |})
     = Throw (Error "EACCES: permission denied, open 'wled00/html_other.h'")
  /\ files (snd (writeChunks (H := Demo.env) "wled00/data" [Demo.PAGE_update; Demo.favicon]
                   "wled00/html_other.h" {| files := Trial.locked; trace := [] |}))
     = Trial.locked.
Proof.
  split; [reflexivity |].
  rewrite (writeChunks_unwritable (H := Demo.env) "wled00/data"
             [Demo.PAGE_update; Demo.favicon] "wled00/html_other.h"
             "EACCES: permission denied, open 'wled00/html_other.h'"
             {| files := Trial.locked; trace := [] |}); [| reflexivity].
  split; reflexivity.
Defined.

Lemma sources_are_left_alone :
  "wled00/data/update.htm" <> "wled00/html_other.h"
  /\ files (snd (writeChunks (H := Demo.env) "wled00/data" [Demo.PAGE_update; Demo.favicon]
                   "wled00/html_other.h" Demo.start)) !! "wled00/data/update.htm"
     = Some (File (list_byte_of_string "<h2>Update ##VERSION##</h2>")).
Proof.
  split; [discriminate |].
  rewrite (writeChunks_touches_only_destination (H := Demo.env) "wled00/data"
             [Demo.PAGE_update; Demo.favicon] "wled00/html_other.h" "wled00/data/update.htm"
             Demo.start); [reflexivity | discriminate].
Defined.

Lemma favicon_after_update :
  writable (files Demo.start) "wled00/html_other.h" = true
  /\ exists text,
       files (snd (writeChunks (H := Demo.env) "wled00/data" [Demo.PAGE_update]
                     "wled00/html_other.h" Demo.start)) !! "wled00/html_other.h"
       = Some (File (utf8 text))
       /\ files (snd (writeChunks (H := Demo.env) "wled00/data"
                        ([Demo.PAGE_update] ++ [Demo.favicon])
                        "wled00/html_other.h" Demo.start)) !! "wled00/html_other.h"
          = Some (File (utf8 (text +:+ binary_chunk "wled00/data" Demo.favicon
                                         "  0x00, 0x00, 0x01"))).
Proof.
  split; [reflexivity |].
  destruct (writeChunks_appends (H := Demo.env) "wled00/data" [Demo.PAGE_update] [Demo.favicon]
              "wled00/html_other.h" Demo.start) as (text & Hfirst & Hboth & _);
    [reflexivity |].
  exists text. split; [exact Hfirst |]. rewrite Hboth. reflexivity.
Defined.

End ChunksRuns.

(** ** More on [writeHtmlGzipped] *)

Section IndexPageMore.

Import Js Cdata Obs.

Context `{Env}.

(** X19: When the inliner hands no document to its callback, with an error or
    without, the callback fails on [html.length] before it looks at the
    error: it ends with the [TypeError] of that access, whose message is
    the one of the runtime, whatever the error is; the error of the
    inliner is neither printed nor thrown, and nothing is written.  The
    exception is raised in the callback: [writeHtmlGzipped] has returned
    by then. *)
Theorem absent_document_masks_error
    (sourceFile resultFile : string) (error : option exn) (w : world) :
  inliner (files w) sourceFile = (error, None) ->
  let returned :=
    {| files := files w; trace := trace w ++ [Info ("Reading " +:+ sourceFile)] |} in
  (forall w0, onInlined sourceFile resultFile error None w0
              = (Throw (Error length_of_undefined), w0))
  /\ writeHtmlGzipped sourceFile resultFile w
     = (Ret (new_inliner sourceFile (onInlined sourceFile resultFile)), returned)
  /\ new_inliner sourceFile (onInlined sourceFile resultFile) returned
     = (Throw (Error length_of_undefined), returned)
  /\ process (writeHtmlGzipped sourceFile resultFile) w
     = (InCallback (Error length_of_undefined), returned).
Proof.
  intros Hin returned. subst returned. repeat apply conj.
  - reflexivity.
  - reflexivity.
  - rewrite new_inliner_run. cbn [files]. rewrite Hin. now destruct error.
  - rewrite writeHtmlGzipped_run. cbv zeta. rewrite Hin. now destruct error.
Qed.

(** X20: [writeHtmlGzipped] changes no other file than its output file,
    however it ends: the call itself changes no file at all, and the run
    to the end of its callbacks changes at most the output file. *)
Theorem writeHtmlGzipped_touches_only_destination
    (sourceFile resultFile path : string) (w : world) :
  path <> resultFile ->
  files (snd (writeHtmlGzipped sourceFile resultFile w)) = files w
  /\ files (snd (process (writeHtmlGzipped sourceFile resultFile) w)) !! path = files w !! path.
Proof.
  intros Hne. split; [reflexivity |]. rewrite writeHtmlGzipped_run. cbv zeta.
  destruct (inliner (files w) sourceFile) as [[error |] [html |]]; try reflexivity.
  destruct (zlib_gzip (adoptVersionAndRepo html)) as [error | result]; [reflexivity |].
  unfold writeFileSync. cbn [files].
  destruct (files w !! resultFile) as [[data | reason] |]; cbn [called_back snd files];
    try reflexivity; now apply lookup_insert_ne.
Qed.

End IndexPageMore.

Section IndexPageRuns.

Import Js Cdata Obs.

Lemma missing_index_page_masks_enoent :
  inliner (Env := Demo.env) (files Demo.start) "wled00/data/missing.htm"
  = (Some (Error (enoent "wled00/data/missing.htm")), None)
  /\ fst (writeHtmlGzipped (H := Demo.env) "wled00/data/missing.htm" "wled00/html_ui.h"
            Demo.start)
     = Ret (new_inliner (H := Demo.env) "wled00/data/missing.htm"
              (onInlined (H := Demo.env) "wled00/data/missing.htm" "wled00/html_ui.h"))
  /\ process (writeHtmlGzipped (H := Demo.env) "wled00/data/missing.htm" "wled00/html_ui.h")
       Demo.start
     = (InCallback (Error (length_of_undefined (Env := Demo.env))),
        {| files := Demo.disk; trace := [Info "Reading wled00/data/missing.htm"] |}).
Proof.
  split; [reflexivity |].
  destruct (absent_document_masks_error (H := Demo.env) "wled00/data/missing.htm"
              "wled00/html_ui.h" (Some (Error (enoent "wled00/data/missing.htm"))) Demo.start)
    as (_ & Hcall & _ & Hrun); [reflexivity |].
  split; [now rewrite Hcall | exact Hrun].
Defined.

Lemma index_page_is_left_alone :
  "wled00/data/index.htm" <> "wled00/html_ui.h"
  /\ files (snd (process (writeHtmlGzipped (H := Demo.env) "wled00/data/index.htm"
                            "wled00/html_ui.h")
                   Demo.start)) !! "wled00/data/index.htm"
     = Some (File (list_byte_of_string "<p>WLED ##VERSION##</p>")).
Proof.
  split; [discriminate |].
  rewrite (proj2 (writeHtmlGzipped_touches_only_destination (H := Demo.env)
                    "wled00/data/index.htm" "wled00/html_ui.h" "wled00/data/index.htm"
                    Demo.start ltac:(discriminate))).
  reflexivity.
Defined.

End IndexPageRuns.

(** ** The [mangle] functions of the script *)

Section Mangles.

Import Js Cdata Obs Replace Config.

Lemma includes_drop (t s : string) (k : nat) :
  includes s t = false -> includes (drop k s) t = false.
Proof.
  revert k. induction s as [|c s IH]; intros k Hs; [now rewrite drop_empty |].
  destruct k as [|k]; [exact Hs |]. cbn [drop]. apply IH.
  rewrite includes_cons in Hs. now apply orb_false_iff in Hs as [_ Hs].
Qed.

Lemma cut_first_none (t s : string) : cut_first t s = None -> includes s t = false.
Proof.
  induction s as [|c s IH]; cbn [cut_first].
  - destruct (String.prefix t "") eqn:Hp; [discriminate | intros _].
    cbn [includes]. now rewrite Hp.
  - destruct (String.prefix t (String c s)) eqn:Hp; [discriminate |].
    destruct (cut_first t s) as [[p r] |]; [discriminate | intros _].
    rewrite includes_cons, Hp. now apply IH.
Qed.

Lemma cut_first_some (t s p r : string) :
  t <> "" -> cut_first t s = Some (p, r) -> s = p +:+ t +:+ r /\ includes p t = false.
Proof.
  intros Ht. revert p r. induction s as [|c s IH]; intros p r; cbn [cut_first].
  - destruct (String.prefix t "") eqn:Hp; [| discriminate].
    apply prefix_empty_r in Hp. congruence.
  - destruct (String.prefix t (String c s)) eqn:Hp.
    + intros [= <- <-]. apply prefix_iff in Hp as [x Hx].
      rewrite Hx, drop_append, append_empty_l. split; [reflexivity |].
      now apply includes_empty.
    + destruct (cut_first t s) as [[p' r'] |]; [| discriminate].
      intros [= <- <-]. destruct (IH p' r' eq_refl) as [-> Hclean].
      split; [now rewrite append_cons |].
      rewrite includes_cons, Hclean, orb_false_r.
      destruct (String.prefix t (String c p')) eqn:Hq; [| reflexivity].
      apply prefix_iff in Hq as [q Hq].
      rewrite <- append_cons, Hq, append_assoc, prefix_append in Hp. discriminate.
Qed.

Lemma cut_last_none (t s : string) : cut_last t s = None -> includes s t = false.
Proof.
  induction s as [|c s IH]; cbn [cut_last].
  - destruct (String.prefix t "") eqn:Hp; [discriminate | intros _].
    cbn [includes]. now rewrite Hp.
  - destruct (cut_last t s) as [[p r] |]; [discriminate |].
    destruct (String.prefix t (String c s)) eqn:Hp; [discriminate | intros _].
    rewrite includes_cons, Hp. now apply IH.
Qed.

Lemma cut_last_some (t s p q : string) :
  t <> "" -> cut_last t s = Some (p, q) -> s = p +:+ t +:+ q /\ includes q t = false.
Proof.
  intros Ht. revert p q. induction s as [|c s IH]; intros p q; cbn [cut_last].
  - destruct (String.prefix t "") eqn:Hp; [| discriminate].
    apply prefix_empty_r in Hp. congruence.
  - destruct (cut_last t s) as [[p' q'] |] eqn:Hs.
    + intros [= <- <-]. destruct (IH p' q' eq_refl) as [-> Hclean].
      split; [now rewrite append_cons | exact Hclean].
    + destruct (String.prefix t (String c s)) eqn:Hp; [| discriminate].
      intros [= <- <-]. apply prefix_iff in Hp as [x Hx].
      rewrite Hx, drop_append, append_empty_l. split; [reflexivity |].
      apply cut_last_none in Hs.
      destruct t as [|a t]; [congruence |]. rewrite append_cons in Hx.
      injection Hx as _ ->.
      rewrite <- (drop_append t x). now apply includes_drop.
Qed.

(** X21: [replace] with a pattern [a.*b] and the flags [g] and [s] replaces
    one stretch of the text or none: the text stays as it is when [a]
    does not occur or no [b] follows its first occurrence; otherwise
    everything from the first [a] to the end of the last [b] gives way
    to the replacement, whatever lies between them. *)
Theorem replace_span_first_to_last (a b r str : string) :
  a <> "" -> b <> "" ->
  (replace_span a b r str = str
   /\ (includes str a = false
       \/ exists p m, str = p +:+ a +:+ m /\ includes p a = false /\ includes m b = false))
  \/ (exists p m q,
         str = p +:+ a +:+ m +:+ b +:+ q
         /\ includes p a = false /\ includes q b = false
         /\ replace_span a b r str = p +:+ r +:+ q).
Proof.
  intros Ha Hb. unfold replace_span.
  destruct (cut_first a str) as [[p m] |] eqn:Hfirst.
  - destruct (cut_first_some a str p m Ha Hfirst) as [-> Hp].
    destruct (cut_last b m) as [[m' q] |] eqn:Hlast.
    + destruct (cut_last_some b m m' q Hb Hlast) as [-> Hq].
      right. exists p, m', q. now repeat apply conj.
    + left. split; [reflexivity |]. right. exists p, m.
      repeat apply conj; [reflexivity | exact Hp | now apply cut_last_none].
  - left. split; [reflexivity |]. left. now apply cut_first_none.
Qed.

Lemma two_style_blocks_become_one_marker :
  replace_span "<style>" "</style>" "%CSS%%SCSS%"
    "<head><style>a</style><b>x</b><style>c</style></head>"
  = "<head>%CSS%%SCSS%</head>".
Proof.
  destruct (replace_span_first_to_last "<style>" "</style>" "%CSS%%SCSS%"
              "<head><style>a</style><b>x</b><style>c</style></head>")
    as [[Hsame _] | (p & m & q & _ & _ & _ & Hrun)]; [discriminate | discriminate | |];
    reflexivity.
Defined.

Lemma prefix_char_cons (c d : ascii) (x y : string) :
  String.prefix (String c "") (String d x) = false ->
  String.prefix (String c "") (String d y) = false.
Proof.
  intros Hx. destruct (String.prefix (String c "") (String d y)) eqn:Hy; [| reflexivity].
  apply prefix_cons in Hy as [-> _].
  assert (String.prefix (String d "") (String d x) = true)
    by (apply prefix_cons; split; [reflexivity | apply prefix_empty_l]).
  congruence.
Qed.

Lemma cut_first_char (c : ascii) (p r : string) :
  includes p (String c "") = false ->
  cut_first (String c "") (p +:+ String c "" +:+ r) = Some (p, r).
Proof.
  induction p as [|d p IH]; intros Hp.
  - rewrite append_empty_l. unfold cut_first. destruct (String c "" +:+ r) eqn:E; [discriminate |].
    fold cut_first. rewrite <- E, prefix_append. now rewrite drop_append.
  - rewrite append_cons. rewrite includes_cons in Hp.
    apply orb_false_iff in Hp as [Hhead Hrest]. cbn [cut_first].
    rewrite (prefix_char_cons c d p _ Hhead). now rewrite (IH Hrest).
Qed.

(** X22: The [mangle] of [PAGE_settings] doubles the first percent sign of the
    chunk and no other one: [replace] with a text for its pattern stops
    after one replacement.  Then the marker of the DMX menu is put behind
    every button of the user interface; a chunk without such a button is
    the chunk with its first percent sign doubled. *)
Theorem settings_mangle_first_percent (p r : string) :
  includes p "%" = false ->
  mangle_settings (p +:+ "%" +:+ r)
  = replace_all [UI_button] (UI_button +:+ "%DMXMENU%") (p +:+ "%%" +:+ r)
  /\ (includes (p +:+ "%%" +:+ r) UI_button = false ->
      mangle_settings (p +:+ "%" +:+ r) = p +:+ "%%" +:+ r).
Proof.
  intros Hp.
  assert (Hfirst : replace_first "%" "%%" (p +:+ "%" +:+ r) = p +:+ "%%" +:+ r).
  { unfold replace_first. now rewrite (cut_first_char "%" p r Hp). }
  unfold mangle_settings. rewrite Hfirst. split; [reflexivity |].
  intros Hnone. unfold replace_all.
  rewrite replace_scan_split by discriminate.
  rewrite <- split_nonempty_sep by discriminate.
  now rewrite split_absent by (discriminate || exact Hnone).
Qed.

Lemma second_percent_stays_single :
  includes "width:50" "%" = false
  /\ mangle_settings ("width:50" +:+ "%" +:+ ";height:20%") = "width:50%%;height:20%".
Proof.
  split; [reflexivity |].
  destruct (settings_mangle_first_percent "width:50" ";height:20%") as [_ Hrun];
    [reflexivity |].
  rewrite Hrun; reflexivity.
Defined.

End Mangles.

(** ** The script as a whole *)

Section Script.

Import Js Cdata Obs Known Config.

Context `{Env}.

Lemma known_spec_quiet (srcDir : string) (s : Spec.t) (fs : gmap string node) :
  known_spec s = true ->
  fst (specToChunk srcDir s {| files := fs; trace := [] |}) <> Ret None
  /\ Forall (fun e => is_plain_warning e = false) (chunk_events fs srcDir s).
Proof.
  unfold known_spec, known_filter. intros [Hm Hf]%andb_true_iff.
  assert (Hrun : exists r, specToChunk srcDir s {| files := fs; trace := [] |}
                           = (r, {| files := fs; trace := [] |}) /\ r <> Ret None).
  { unfold specToChunk.
    destruct (method_is s "plaintext"); [| destruct (method_is s "binary"); [| discriminate]];
      unfold bind, readFileSync; cbn [files].
    - destruct (fs !! _) as [[buf | reason] |]; try (eexists; split; [reflexivity | discriminate]).
      unfold filter. destruct (Spec.filter s) as [t |].
      + apply orb_true_iff in Hf as [-> | Hf].
        * destruct (CleanCSS_minify _); eexists; split; try reflexivity; discriminate.
        * rewrite Hf. destruct (String.eqb t "css-minify");
            [destruct (CleanCSS_minify _) | destruct (MinifyHTML _)];
            eexists; split; try reflexivity; discriminate.
      + eexists; split; [reflexivity | discriminate].
    - destruct (fs !! _) as [[buf | reason] |]; eexists; split; try reflexivity; discriminate. }
  destruct Hrun as (r & Hrun & Hr). unfold chunk_events. rewrite Hrun. cbn [fst snd trace].
  split; [exact Hr |]. destruct r; repeat constructor.
Qed.

(** X23: Every entry of the two arrays of the script has a method and a filter
    that the script knows: whatever the files and the environment, none
    of them makes [specToChunk] return [undefined], and none of them
    makes the script print a warning about an unknown filter or method. *)
Theorem shipped_specs_are_known (s : Spec.t) (fs : gmap string node) :
  In s (settings_specs ++ other_specs) ->
  fst (specToChunk "wled00/data" s {| files := fs; trace := [] |}) <> Ret None
  /\ contribution fs "wled00/data" s
     = match fst (specToChunk "wled00/data" s {| files := fs; trace := [] |}) with
       | Ret (Some chunk) => chunk
       | _ => ""
       end
  /\ Forall (fun e => is_plain_warning e = false) (chunk_events fs "wled00/data" s).
Proof.
  intros Hin.
  assert (Hknown : known_spec s = true).
  { assert (Hall : forallb known_spec (settings_specs ++ other_specs) = true) by reflexivity.
    rewrite forallb_forall in Hall. now apply Hall. }
  destruct (known_spec_quiet "wled00/data" s fs Hknown) as [Hsome Hquiet].
  repeat apply conj; [exact Hsome | | exact Hquiet].
  unfold contribution. destruct (fst _) as [[chunk |] | e]; [reflexivity | congruence | reflexivity].
Qed.

Lemma writable_insert_ne (fs : gmap string node) (a b : string) (data : list byte) :
  a <> b -> writable (<[a := File data]> fs) b = writable fs b.
Proof. intros Hne. unfold writable. now rewrite lookup_insert_ne. Qed.

Lemma other_sources_are_not_settings_h (s : Spec.t) :
  In s other_specs -> html_settings_h <> source_path "wled00/data" s.
Proof.
  intros Hs E. cbn [other_specs In] in Hs.
  repeat (destruct Hs as [<- | Hs]; [vm_compute in E; discriminate E |]).
  exact Hs.
Qed.

(** The script up to its last statement: [writeHtmlGzipped] has
    returned, the two chunk files are written, and the inliner is left
    to the event loop. *)
Lemma script_chunks (w : world) :
  writable (files w) html_settings_h = true ->
  writable (files w) html_other_h = true ->
  exists printed,
    script w
    = (Ret (new_inliner index_htm (onInlined index_htm html_ui_h)),
       {| files :=
            <[html_other_h := File (utf8 (chunks_text (files w) "wled00/data" other_specs))]>
              (<[html_settings_h :=
                   File (utf8 (chunks_text (files w) "wled00/data" settings_specs))]>
                 (files w));
          trace := trace w ++ printed |}).
Proof.
  intros Hsettings Hother. unfold script. unfold bind at 1. rewrite writeHtmlGzipped_call.
  unfold bind at 1. rewrite writeChunks_ok by exact Hsettings. cbn [files trace].
  unfold bind at 1.
  rewrite writeChunks_ok
    by (cbn [files]; rewrite writable_insert_ne by discriminate; exact Hother).
  cbn [files trace]. unfold ret.
  destruct (batch_agree "wled00/data" other_specs
              (<[html_settings_h :=
                   File (utf8 (chunks_text (files w) "wled00/data" settings_specs))]> (files w))
              (files w)) as [-> _].
  { intros s Hs. apply lookup_insert_ne. now apply other_sources_are_not_settings_h. }
  eexists. rewrite <- !app_assoc. reflexivity.
Qed.

End Script.

Section ScriptRuns.

Import Js Cdata Obs Known Config.

Context `{Env}.

(** X24: A run of the whole script that goes well: the two chunk files are
    written first, each with the header and what its specs add on the
    files as they were at the start, then the inliner answers and the
    index page is written; the files at the end are the files at the
    start with these three, and nothing else has changed. *)
Theorem script_writes_three_files (w : world) (html : string) (result : list byte) :
  writable (files w) html_settings_h = true ->
  writable (files w) html_other_h = true ->
  writable (files w) html_ui_h = true ->
  let chunks :=
    <[html_other_h := File (utf8 (chunks_text (files w) "wled00/data" other_specs))]>
      (<[html_settings_h := File (utf8 (chunks_text (files w) "wled00/data" settings_specs))]>
         (files w)) in
  inliner chunks index_htm = (None, Some html) ->
  zlib_gzip (adoptVersionAndRepo html) = inr result ->
  exists w',
    process script w = (Finished, w')
    /\ files w'
       = <[html_ui_h := File (utf8 (html_source index_htm (length result) (hexdump result)))]>
           chunks.
Proof.
  intros Hsettings Hother Hui chunks Hin Hzip.
  destruct (script_chunks w Hsettings Hother) as (printed & Hchunks).
  unfold process. rewrite Hchunks. fold chunks.
  rewrite new_inliner_run. cbn [files trace]. rewrite Hin, Hzip.
  rewrite writeFileSync_ok.
  - eexists. split; reflexivity.
  - cbn [files]. unfold chunks. now rewrite !writable_insert_ne by discriminate.
Qed.

(** X25: When the inliner reports an error for the index page, the script
    itself ends normally, to its last statement, with the two chunk files
    written: the exception is raised afterwards, in the callback of the
    inliner, and is no exception of the script.  The chunk files hold
    their new content, and the file of the index page is as it was. *)
Theorem script_index_failure_keeps_chunks (w : world) :
  writable (files w) html_settings_h = true ->
  writable (files w) html_other_h = true ->
  let chunks :=
    <[html_other_h := File (utf8 (chunks_text (files w) "wled00/data" other_specs))]>
      (<[html_settings_h := File (utf8 (chunks_text (files w) "wled00/data" settings_specs))]>
         (files w)) in
  (exists error, fst (inliner chunks index_htm) = Some error) ->
  exists later returned thrown w',
    script w = (Ret later, returned)
    /\ files returned = chunks
    /\ later returned = (Throw thrown, w')
    /\ process script w = (InCallback thrown, w')
    /\ files w' = chunks
    /\ files w' !! html_ui_h = files w !! html_ui_h.
Proof.
  intros Hsettings Hother chunks [error Herror].
  destruct (script_chunks w Hsettings Hother) as (printed & Hchunks).
  unfold process. rewrite Hchunks. fold chunks.
  exists (new_inliner index_htm (onInlined index_htm html_ui_h)),
         {| files := chunks; trace := trace w ++ printed |}.
  rewrite new_inliner_run. cbn [files trace].
  assert (Hui : chunks !! html_ui_h = files w !! html_ui_h)
    by (unfold chunks; now rewrite !lookup_insert_ne by discriminate).
  destruct (inliner chunks index_htm) as [e [html |]]; cbn [fst] in Herror; subst e;
    eexists _, _; repeat apply conj; try reflexivity; exact Hui.
Qed.

(** X26: When the first output file cannot be opened, the script ends there
    with the exception of [fs.writeFileSync], which nothing catches: the
    second [writeChunks] call is not made and the callback of the inliner
    never runs, so no file has changed. *)
Theorem script_stops_at_locked_settings (w : world) (reason : string) :
  files w !! html_settings_h = Some (Denied reason) ->
  let stopped :=
    {| files := files w;
       trace := trace w ++ [Info ("Reading " +:+ index_htm)]
                ++ concat (map (chunk_events (files w) "wled00/data") settings_specs)
                ++ [Info ("Writing "
                          +:+ decimal (String.length
                                         (chunks_text (files w) "wled00/data" settings_specs))
                          +:+ " characters into " +:+ html_settings_h)] |} in
  script w = (Throw (Error reason), stopped)
  /\ process script w = (Uncaught (Error reason), stopped).
Proof.
  intros Hdenied stopped.
  assert (Hrun : script w = (Throw (Error reason), stopped)).
  { unfold script. unfold bind at 1. rewrite writeHtmlGzipped_call. unfold bind at 1.
    rewrite writeChunks_run. cbn [files trace]. unfold writeFileSync. cbn [files].
    rewrite Hdenied. subst stopped. now rewrite <- !app_assoc. }
  split; [exact Hrun |]. unfold process. now rewrite Hrun.
Qed.

End ScriptRuns.

Section ScriptWitnesses.

Import Js Cdata Obs Known Config.

Lemma style_sheet_is_known :
  In (hd Demo.favicon settings_specs) (settings_specs ++ other_specs)
  /\ fst (specToChunk (H := Demo.env) "wled00/data" (hd Demo.favicon settings_specs)
            {| files := Demo.disk; trace := [] |})
     <> Ret None.
Proof.
  split; [now left |].
  apply (shipped_specs_are_known (H := Demo.env) (hd Demo.favicon settings_specs) Demo.disk).
  now left.
Defined.

Lemma script_on_the_small_disk :
  writable (files Demo.start) html_ui_h = true
  /\ zlib_gzip (Env := Demo.env) (adoptVersionAndRepo (H := Demo.env) "<p>WLED ##VERSION##</p>")
     = inr (list_byte_of_string "<p>WLED 1.2.3</p>")
  /\ exists w',
       process (script (H := Demo.env)) Demo.start = (Finished, w')
       /\ files w' !! html_ui_h
          = Some (File (utf8 (html_source index_htm 17
                                (hexdump (list_byte_of_string "<p>WLED 1.2.3</p>")))))
       /\ files w' !! html_settings_h = Some (File (utf8 chunks_header)).
Proof.
  do 2 (split; [reflexivity |]).
  destruct (script_writes_three_files (H := Demo.env) Demo.start "<p>WLED ##VERSION##</p>"
              (list_byte_of_string "<p>WLED 1.2.3</p>"))
    as (w' & Hrun & Hfiles); [reflexivity | reflexivity | reflexivity | reflexivity | reflexivity |].
  exists w'. split; [exact Hrun |]. rewrite Hfiles. split; reflexivity.
Defined.

Lemma script_without_index_page :
  writable Trial.disk html_settings_h = true
  /\ writable Trial.disk html_other_h = true
  /\ exists later returned thrown w',
       script (H := Demo.env) {| files := Trial.disk; trace := [] |} = (Ret later, returned)
       /\ files returned !! html_settings_h = Some (File (utf8 chunks_header))
       /\ process (script (H := Demo.env)) {| files := Trial.disk; trace := [] |}
          = (InCallback thrown, w')
       /\ files w' !! html_ui_h = None
       /\ files w' !! html_settings_h = Some (File (utf8 chunks_header)).
Proof.
  do 2 (split; [reflexivity |]).
  destruct (script_index_failure_keeps_chunks (H := Demo.env)
              {| files := Trial.disk; trace := [] |})
    as (later & returned & thrown & w' & Hscript & Hreturned & _ & Hrun & Hfiles & Hui);
    [reflexivity | reflexivity | eexists; reflexivity |].
  exists later, returned, thrown, w'. repeat apply conj.
  - exact Hscript.
  - rewrite Hreturned. reflexivity.
  - exact Hrun.
  - now rewrite Hui.
  - rewrite Hfiles. reflexivity.
Defined.

Lemma script_with_locked_settings :
  files {| files := <[html_settings_h := Denied "EISDIR: illegal operation on a directory"]> ∅;
           trace := [] |} !! html_settings_h
  = Some (Denied "EISDIR: illegal operation on a directory")
  /\ fst (script (H := Demo.env)
            {| files := <[html_settings_h := Denied "EISDIR: illegal operation on a directory"]> ∅;
               trace := [] |})
     = Throw (Error "EISDIR: illegal operation on a directory")
  /\ fst (process (script (H := Demo.env))
            {| files := <[html_settings_h := Denied "EISDIR: illegal operation on a directory"]> ∅;
               trace := [] |})
     = Uncaught (Error "EISDIR: illegal operation on a directory").
Proof.
  split; [reflexivity |].
  destruct (script_stops_at_locked_settings (H := Demo.env)
              {| files := <[html_settings_h := Denied "EISDIR: illegal operation on a directory"]> ∅;
                 trace := [] |}
              "EISDIR: illegal operation on a directory") as [Hscript Hrun]; [reflexivity |].
  split; [now rewrite Hscript | now rewrite Hrun].
Defined.

End ScriptWitnesses.
